(** * WeatherStation: the live telemetry engine of [main.py]

    A shallow embedding of the sensor workers, the connection manager, the
    threshold check and the operator commands of [main.py], followed by the
    properties of the specification that were checked against it.

    Modelling conventions.
    - Python floats are idealised as exact rationals ([Q]): no rounding error
      in [a + (b - a) * random()], no NaN or infinity, no negative zero.
    - Every coroutine is run to completion without interleaving: an [await]
      is an ordinary call.  What other tasks do between two awaits is outside
      the model.
    - The standard library's [json.dumps] is not re-implemented: the text it
      returns is represented by the dictionary it was given.
    - The wall clock, the outcome of [random.random()], the health of each
      websocket and of the disk are inputs held in the [World].
    - The disk fails by refusing to open the history file.  A write that is
      refused once the file is open, which can leave a file without its
      header, is outside the model. *)

From Stdlib Require Import QArith Qround Lqa ZArith Lia Ascii.
From stdpp Require Import gmap strings list pretty.

(** ** Python built-ins used by the program *)

Module Py.

(** [a > b] and [a < b] on numbers. *)
Definition gt (a b : Q) : bool := negb (Qle_bool a b).
Definition lt (a b : Q) : bool := negb (Qle_bool b a).

(** [min(a, b)] and [max(a, b)]: the first argument is kept unless the
    second one is strictly better. *)
Definition min (a b : Q) : Q := if lt b a then b else a.
Definition max (a b : Q) : Q := if gt b a then b else a.

(** Nearest integer, ties to the even one. *)
Definition round_half_even (x : Q) : Z :=
  let f := Qfloor x in
  match (x - inject_Z f ?= 1 # 2)%Q with
  | Lt => f
  | Gt => (f + 1)%Z
  | Eq => if Z.even f then f else (f + 1)%Z
  end.

(** [round(x, 1)]: the nearest multiple of one tenth. *)
Definition round1 (x : Q) : Q := (round_half_even (x * 10) # 10)%Q.

(** [random.random()] is [k * 2**-53] for a 53-bit integer [k]; the draw is
    an input of the model and is reduced into that range. *)
Definition random (draw : N) : Q :=
  (Z.of_N (draw mod 2 ^ 53) # 2 ^ 53)%Q.

(** [random.uniform(a, b)] is [a + (b - a) * self.random()]. *)
Definition uniform (a b : Q) (draw : N) : Q := (a + (b - a) * random draw)%Q.

(** The character of a decimal digit. *)
Definition digit (d : Z) : Ascii.ascii := Ascii.ascii_of_N (48 + Z.to_N d).

(** The digits after the decimal point of [r / d], for [0 <= r < d]: at
    least one digit, and no more than [fuel]. *)
Fixpoint frac_digits (fuel : nat) (r d : Z) : string :=
  match fuel with
  | O => EmptyString
  | S fuel' =>
      let r10 := (r * 10)%Z in
      String (digit (r10 / d))
             (if (r10 mod d =? 0)%Z then EmptyString
              else frac_digits fuel' (r10 mod d) d)
  end.

(** [str(x)] for a float [x]: sign, integer part, point, fraction.  This is
    what Python prints when [x] holds a decimal of at most 15 significant
    digits whose magnitude calls for no exponent (from 1e-4 up to 1e16). *)
Definition str_float (x : Q) : string :=
  let n := Qnum x in
  let d := Zpos (Qden x) in
  let a := Z.abs n in
  (if (n <? 0)%Z then "-" else "") +:+ pretty (a / d)%Z +:+ "." +:+
  frac_digits 17 (a mod d) d.

(** A field of [strftime] printed on two digits ([%H], [%M], [%S]). *)
Definition two_digits (n : nat) : string :=
  String (digit (Z.of_nat (n / 10))) (String (digit (Z.of_nat (n mod 10))) EmptyString).

(** [datetime.strftime("%H:%M:%S")], the clock being counted in seconds. *)
Definition strftime_HMS (clock : nat) : string :=
  two_digits (clock / 3600 mod 24) +:+ ":" +:+
  two_digits (clock / 60 mod 60) +:+ ":" +:+
  two_digits (clock mod 60).

End Py.

(** ** Data model *)

(** A value of a dictionary handed to [json.dumps]. *)
Inductive JValue :=
  | JStr (s : string)
  | JNum (x : Q).

(** A dictionary literal: its items in insertion order. *)
Definition Dict := list (string * JValue).

(** The text returned by [json.dumps(d)]. *)
Inductive Text :=
  | json_dumps (d : Dict).

(** A websocket object, known by its identity. *)
Definition WebSocket := nat.

(** The attributes of a [SensorWorker] (lines 75-82). *)
Record SensorWorker := {
  sensor_id : string;
  sensor_name : string;
  sensor_unit : string;
  min_val : Q;
  max_val : Q;
  is_running : bool;
  current_value : Q
}.

(** [SensorWorker.__init__]. *)
Definition SensorWorker_init (sid name unit_ : string) (lo hi : Q) : SensorWorker :=
  {| sensor_id := sid; sensor_name := name; sensor_unit := unit_;
     min_val := lo; max_val := hi;
     is_running := true;
     current_value := 0 |}.

(** A row of [weather_history.csv]; the time column keeps the clock reading
    from which the source prints the date. *)
Inductive CsvRow :=
  | Header
  | Reading (time : nat) (sid name : string) (value : Q) (unit_ : string).

(** Everything the program reads and writes. *)
Record World := {
  (** [SYSTEM_CONFIG["update_interval"]] *)
  update_interval : Q;
  (** [manager.active_connections] *)
  active_connections : list WebSocket;
  (** the [SensorWorker] objects, addressed by their position in
      [sensors_list] *)
  sensors : list SensorWorker;
  (** the wall clock, in seconds *)
  clock : nat;
  (** the websockets whose [send_text] raises *)
  closed : gset WebSocket;
  (** the texts each websocket has carried to its client, oldest first *)
  received : gmap WebSocket (list Text);
  (** [weather_history.csv], when it exists *)
  csv_file : option (list CsvRow);
  (** whether opening the file fails *)
  disk_error : bool;
  (** instrumentation: the argument of every call of
      [ConnectionManager.broadcast], oldest first *)
  wire : list Text
}.

Definition set_update_interval (v : Q) (w : World) : World :=
  {| update_interval := v; active_connections := active_connections w;
     sensors := sensors w; clock := clock w; closed := closed w;
     received := received w; csv_file := csv_file w;
     disk_error := disk_error w; wire := wire w |}.

Definition set_active_connections (l : list WebSocket) (w : World) : World :=
  {| update_interval := update_interval w; active_connections := l;
     sensors := sensors w; clock := clock w; closed := closed w;
     received := received w; csv_file := csv_file w;
     disk_error := disk_error w; wire := wire w |}.

Definition set_sensors (l : list SensorWorker) (w : World) : World :=
  {| update_interval := update_interval w;
     active_connections := active_connections w;
     sensors := l; clock := clock w; closed := closed w;
     received := received w; csv_file := csv_file w;
     disk_error := disk_error w; wire := wire w |}.

Definition set_clock (t : nat) (w : World) : World :=
  {| update_interval := update_interval w;
     active_connections := active_connections w;
     sensors := sensors w; clock := t; closed := closed w;
     received := received w; csv_file := csv_file w;
     disk_error := disk_error w; wire := wire w |}.

Definition set_closed (c : gset WebSocket) (w : World) : World :=
  {| update_interval := update_interval w;
     active_connections := active_connections w;
     sensors := sensors w; clock := clock w; closed := c;
     received := received w; csv_file := csv_file w;
     disk_error := disk_error w; wire := wire w |}.

Definition set_received (r : gmap WebSocket (list Text)) (w : World) : World :=
  {| update_interval := update_interval w;
     active_connections := active_connections w;
     sensors := sensors w; clock := clock w; closed := closed w;
     received := r; csv_file := csv_file w;
     disk_error := disk_error w; wire := wire w |}.

Definition set_csv_file (f : option (list CsvRow)) (w : World) : World :=
  {| update_interval := update_interval w;
     active_connections := active_connections w;
     sensors := sensors w; clock := clock w; closed := closed w;
     received := received w; csv_file := f;
     disk_error := disk_error w; wire := wire w |}.

Definition set_disk_error (b : bool) (w : World) : World :=
  {| update_interval := update_interval w;
     active_connections := active_connections w;
     sensors := sensors w; clock := clock w; closed := closed w;
     received := received w; csv_file := csv_file w;
     disk_error := b; wire := wire w |}.

Definition set_wire (l : list Text) (w : World) : World :=
  {| update_interval := update_interval w;
     active_connections := active_connections w;
     sensors := sensors w; clock := clock w; closed := closed w;
     received := received w; csv_file := csv_file w;
     disk_error := disk_error w; wire := l |}.

(** The texts websocket [ws] has delivered so far. *)
Definition inbox (w : World) (ws : WebSocket) : list Text :=
  default [] (received w !! ws).

(** ** Effects: state and exceptions *)

Inductive exn :=
  | ValueError
  | RuntimeError
  | OSError.

Inductive Result (A : Type) :=
  | Ok (a : A)
  | Raise (e : exn).
Arguments Ok {A} a.
Arguments Raise {A} e.

(** A computation runs in a world, ends normally or by an exception, and
    leaves a world; what it wrote before raising stays written. *)
Definition M (A : Type) : Type := World -> Result A * World.

#[global] Instance M_ret : MRet M := fun A a w => (Ok a, w).

#[global] Instance M_bind : MBind M := fun A B k m w =>
  match m w with
  | (Ok a, w') => k a w'
  | (Raise e, w') => (Raise e, w')
  end.

Definition raise {A} (e : exn) : M A := fun w => (Raise e, w).

Definition gets {A} (f : World -> A) : M A := fun w => (Ok (f w), w).

Definition modify (f : World -> World) : M () := fun w => (Ok (), f w).

(** [try: body / except: handler] with a bare [except]. *)
Definition try_except {A} (body : M A) (handler : exn -> M A) : M A := fun w =>
  match body w with
  | (Ok a, w') => (Ok a, w')
  | (Raise e, w') => handler e w'
  end.

(** [for x in l: body(x)] *)
Fixpoint for_each {A} (l : list A) (body : A -> M ()) : M () :=
  match l with
  | [] => mret ()
  | x :: l' => body x;; for_each l' body
  end.

(** [when c: body] *)
Definition when (c : bool) (body : M ()) : M () :=
  if c then body else mret ().

(** ** Global settings (lines 24-33) *)

Definition initial_update_interval : Q := 3.

Definition THRESHOLDS : gmap string (gmap string Q) :=
  {[ "temp" := {[ "max" := 30%Q; "min" := (-5)%Q ]};
     "wind" := {[ "max" := 15%Q ]};
     "uv" := {[ "max" := 8%Q ]};
     "air" := {[ "max" := 100%Q ]} ]}.

(** ** [log_to_csv] (lines 39-48) *)

Definition log_to_csv (sid name : string) (value : Q) (unit_ : string) : M () :=
  file_exists ← gets (fun w => bool_decide (is_Some (csv_file w)));
  try_except
    (failing ← gets disk_error;
     if (failing : bool) then raise OSError
     else
       now ← gets clock;
       modify (fun w =>
         set_csv_file
           (Some (default [] (csv_file w)
                  ++ (if (file_exists : bool) then [] else [Header])
                  ++ [Reading now sid name value unit_])) w))
    (fun _ => mret ()).

(** ** [ConnectionManager] (lines 50-70) *)

(** [WebSocket.send_text]: a closed socket raises, an open one carries the
    text to its client. *)
Definition send_text (ws : WebSocket) (message : Text) : M () := fun w =>
  if decide (ws ∈ closed w) then (Raise RuntimeError, w)
  else (Ok (), set_received (<[ws := inbox w ws ++ [message]]> (received w)) w).

(** [list.remove(x)]: the list without the first [x], or nothing when [x]
    does not occur. *)
Fixpoint list_remove (x : WebSocket) (l : list WebSocket) : option (list WebSocket) :=
  match l with
  | [] => None
  | y :: l' => if decide (y = x) then Some l' else cons y <$> list_remove x l'
  end.

Definition broadcast (message : Text) : M () :=
  modify (fun w => set_wire (wire w ++ [message]) w);;
  connections ← gets active_connections;
  for_each connections (fun connection =>
    try_except (send_text connection message) (fun _ => mret ())).

Definition log_packet (timestamp level msg : string) : Dict :=
  [("type", JStr "log"); ("time", JStr timestamp);
   ("level", JStr level); ("message", JStr msg)].

Definition broadcast_log (level msg : string) : M () :=
  now ← gets clock;
  let timestamp := Py.strftime_HMS now in
  let packet := log_packet timestamp level msg in
  broadcast (json_dumps packet).

(** [WebSocket.accept]: the handshake of the transport, which leaves
    everything the program looks at as it is. *)
Definition accept (websocket : WebSocket) : M () := mret ().

Definition connect (websocket : WebSocket) : M () :=
  accept websocket;;
  modify (fun w => set_active_connections (active_connections w ++ [websocket]) w);;
  interval ← gets update_interval;
  broadcast_log "SYSTEM"
    ("Клієнт підключено. Інтервал оновлення: " +:+ Py.str_float interval +:+ "с").

Definition disconnect (websocket : WebSocket) : M () := fun w =>
  match list_remove websocket (active_connections w) with
  | Some l => (Ok (), set_active_connections l w)
  | None => (Raise ValueError, w)
  end.

(** ** [SensorWorker] (lines 74-120) *)

Definition set_is_running (b : bool) (s : SensorWorker) : SensorWorker :=
  {| sensor_id := sensor_id s; sensor_name := sensor_name s;
     sensor_unit := sensor_unit s; min_val := min_val s; max_val := max_val s;
     is_running := b; current_value := current_value s |}.

Definition set_current_value (v : Q) (s : SensorWorker) : SensorWorker :=
  {| sensor_id := sensor_id s; sensor_name := sensor_name s;
     sensor_unit := sensor_unit s; min_val := min_val s; max_val := max_val s;
     is_running := is_running s; current_value := v |}.

#[global] Instance SensorWorker_inhabited : Inhabited SensorWorker :=
  populate (SensorWorker_init "" "" "" 0 0).

(** The object behind the reference [self]. *)
Definition getattr (self : nat) : M SensorWorker :=
  gets (fun w => sensors w !!! self).

(** An assignment to an attribute of [self]. *)
Definition setattr (self : nat) (f : SensorWorker -> SensorWorker) : M () :=
  modify (fun w => set_sensors (alter f self (sensors w)) w).

(** Which branch of the limit check (lines 92-97) a value takes. *)
Inductive Alert :=
  | ABOVE_MAX
  | BELOW_MIN
  | NONE.

Definition check_limits (thresholds : gmap string (gmap string Q))
    (sid : string) (value : Q) : Alert :=
  match thresholds !! sid with
  | None => NONE
  | Some limits =>
      if bool_decide (limits = ∅) then NONE
      else if Py.gt value (default 999%Q (limits !! "max")) then ABOVE_MAX
      else if Py.lt value (default (-999)%Q (limits !! "min")) then BELOW_MIN
      else NONE
  end.

Definition data_packet (s : SensorWorker) (value : Q) (timestamp : string) : Dict :=
  [("type", JStr "data"); ("sensor_id", JStr (sensor_id s));
   ("name", JStr (sensor_name s)); ("value", JNum value);
   ("unit", JStr (sensor_unit s)); ("timestamp", JStr timestamp)].

(** The first statement of [run] (line 85). *)
Definition run_ready (self : nat) : M () :=
  s ← getattr self;
  broadcast_log "INFO" ("Сенсор '" +:+ sensor_name s +:+ "' готовий.").

(** The value a running sensor generates from a draw (line 88). *)
Definition generate (s : SensorWorker) (draw : N) : Q :=
  Py.round1 (Py.uniform (min_val s) (max_val s) draw).

(** One turn of the loop of [run] (lines 87-110); the result is the duration
    handed to [asyncio.sleep]. *)
Definition run_iteration (self : nat) (draw : N) : M Q :=
  s ← getattr self;
  when (is_running s)
    (let value := generate s draw in
     setattr self (set_current_value value);;
     log_to_csv (sensor_id s) (sensor_name s) value (sensor_unit s);;
     match check_limits THRESHOLDS (sensor_id s) value with
     | ABOVE_MAX =>
         broadcast_log "WARNING"
           ("HIGH LIMIT: " +:+ sensor_name s +:+ " " +:+ Py.str_float value)
     | BELOW_MIN =>
         broadcast_log "WARNING"
           ("LOW LIMIT: " +:+ sensor_name s +:+ " " +:+ Py.str_float value)
     | NONE => mret ()
     end;;
     now ← gets clock;
     broadcast (json_dumps (data_packet s value (Py.strftime_HMS now))));;
  gets update_interval.

Definition start (self : nat) : M () :=
  s ← getattr self;
  when (negb (is_running s))
    (setattr self (set_is_running true);;
     broadcast_log "INFO" ("Сенсор '" +:+ sensor_name s +:+ "' стартував.")).

Definition stop (self : nat) : M () :=
  s ← getattr self;
  when (is_running s)
    (setattr self (set_is_running false);;
     broadcast_log "INFO" ("Сенсор '" +:+ sensor_name s +:+ "' зупинено.")).

(** ** The sensors (lines 122-131) *)

Definition sensors_list : list SensorWorker :=
  [ SensorWorker_init "temp" "Температура" "°C" (-10) 35;
    SensorWorker_init "humid" "Вологість" "%" 20 90;
    SensorWorker_init "wind" "Швидкість вітру" "м/с" 0 25;
    SensorWorker_init "press" "Тиск" "hPa" 980 1050;
    SensorWorker_init "uv" "УФ-індекс" "idx" 0 11;
    SensorWorker_init "rain" "Рівень опадів" "мм" 0 50;
    SensorWorker_init "air" "Якість повітря" "AQI" 0 150 ].

(** [{s.id: s for s in sensors_list}]: from identifier to the reference of
    the object, a later item replacing an earlier one. *)
Definition sensors_map : gmap string nat :=
  foldl (fun m '(i, s) => <[sensor_id s := i]> m) ∅ (imap pair sensors_list).

(** ** Routes (lines 148-198) *)

Definition set_interval (interval : Q) : M Dict :=
  let new_interval := Py.max (1 # 2) (Py.min 10 interval) in
  modify (set_update_interval new_interval);;
  broadcast_log "SYSTEM"
    ("Швидкість оновлення змінено на " +:+ Py.str_float new_interval +:+ " сек");;
  mret [("status", JStr "updated"); ("interval", JNum new_interval)].

Definition start_sensor (sid : string) : M () :=
  match sensors_map !! sid with
  | Some self => start self
  | None => mret ()
  end.

Definition stop_sensor (sid : string) : M () :=
  match sensors_map !! sid with
  | Some self => stop self
  | None => mret ()
  end.

Definition start_all : M () := for_each (seq 0 (length sensors_list)) start.

Definition stop_all : M () := for_each (seq 0 (length sensors_list)) stop.

(** ** The system as a whole *)

(** The state when the module has been loaded: no observer yet, the sensors
    as constructed; clock, file and disk are whatever the machine has. *)
Definition initial (t : nat) (file : option (list CsvRow)) (failing : bool) : World :=
  {| update_interval := initial_update_interval;
     active_connections := [];
     sensors := sensors_list;
     clock := t;
     closed := ∅;
     received := ∅;
     csv_file := file;
     disk_error := failing;
     wire := [] |}.

(** What can happen next: a request of the operator, a websocket opening or
    going away, a sensor task taking its turn, or the environment moving. *)
Inductive Action :=
  | Connect (ws : WebSocket)
  | Disconnect (ws : WebSocket)
  | SetInterval (interval : Q)
  | StartSensor (sid : string)
  | StopSensor (sid : string)
  | StartAll
  | StopAll
  | Ready (self : nat)
  | Iteration (self : nat) (draw : N)
  | Tick (seconds : nat)
  | Break (ws : WebSocket)
  | Disk (failing : bool).

Definition perform (a : Action) : M () :=
  match a with
  | Connect ws => connect ws
  | Disconnect ws => disconnect ws
  | SetInterval v => set_interval v;; mret ()
  | StartSensor sid => start_sensor sid
  | StopSensor sid => stop_sensor sid
  | StartAll => start_all
  | StopAll => stop_all
  | Ready self => run_ready self
  | Iteration self draw => run_iteration self draw;; mret ()
  | Tick n => modify (fun w => set_clock (clock w + n) w)
  | Break ws => modify (fun w => set_closed ({[ws]} ∪ closed w) w)
  | Disk b => modify (set_disk_error b)
  end.

(** The world after an action, whether it ended normally or not. *)
Definition after (a : Action) (w : World) : World := (perform a w).2.

(** The world after a sequence of actions. *)
Definition run_actions (l : list Action) (w : World) : World :=
  foldl (fun w a => after a w) w l.

(** [startup_event] (lines 133-136): one task per sensor, in the order of
    [sensors_list].  No observer is connected yet, so nothing suspends a
    task before its first [asyncio.sleep]: each sensor announces itself and
    takes its first turn before anything else happens.  [draws] holds one
    draw per sensor. *)
Definition startup_event (draws : list N) : list Action :=
  concat (zip_with (fun self draw => [Ready self; Iteration self draw])
            (seq 0 (length sensors_list)) draws).

(** ** The history routes (lines 155-174) *)

(** A record of [csv.DictReader]: a row of the file read under the field
    names that the first row of the file gives. *)
Inductive HistoryRecord :=
  | DictRow (fieldnames row : CsvRow).

(** [csv.DictReader(f)]: the first row names the fields, every further row
    is a record. *)
Definition DictReader (rows : list CsvRow) : list HistoryRecord :=
  match rows with
  | [] => []
  | fieldnames :: rest => DictRow fieldnames <$> rest
  end.

(** The slice [l[-n:]]: the last [n] items, or all of them. *)
Definition slice_last {A} (n : nat) (l : list A) : list A :=
  drop (length l - n) l.

Definition get_history_data : M (list HistoryRecord) :=
  file ← gets csv_file;
  match file with
  | None => mret []
  | Some rows =>
      try_except
        (failing ← gets disk_error;
         if (failing : bool) then raise OSError
         else mret (reverse (slice_last 50 (DictReader rows))))
        (fun _ => mret [])
  end.

Definition clear_history : M Dict :=
  file ← gets csv_file;
  when (bool_decide (is_Some file))
    (failing ← gets disk_error;
     if (failing : bool) then raise OSError
     else modify (set_csv_file (Some [Header])));;
  mret [("status", JStr "cleared")].

(** ** The websocket route (lines 148-153) *)

(** The loop around [websocket.receive_text()]: what the client sends is
    read and dropped; when the client has nothing more to send the
    transport raises [WebSocketDisconnect], which ends the loop. *)
Fixpoint receive_until_disconnect (incoming : list string) : M () :=
  match incoming with
  | [] => mret ()
  | _ :: rest => receive_until_disconnect rest
  end.

Definition websocket_endpoint (websocket : WebSocket) (incoming : list string) : M () :=
  connect websocket;;
  receive_until_disconnect incoming;;
  disconnect websocket.

(** The requests of the history routes beside the actions of the engine. *)
Inductive Request :=
  | Engine (a : Action)
  | GetHistory
  | ClearHistory.

Definition serve (r : Request) : M () :=
  match r with
  | Engine a => perform a
  | GetHistory => get_history_data;; mret ()
  | ClearHistory => clear_history;; mret ()
  end.

(** The world after a sequence of requests. *)
Definition run_requests (l : list Request) (w : World) : World :=
  foldl (fun w r => (serve r w).2) w l.

(** ** Vocabulary of the specification *)

(** [clamp(v, lo, hi)] in the specification's words. *)
Definition clamp_spec (v lo hi : Q) : Q :=
  if Qlt_le_dec v lo then lo else if Qlt_le_dec hi v then hi else v.

(** A number with at most one decimal place. *)
Definition one_decimal (x : Q) : Prop := exists k : Z, (x == k # 10)%Q.

(** A bound of moderate size, at most 10^12 either way.  The source computes
    in double precision, where a tenth is far above the rounding error for
    numbers of this size and the difference of two of them cannot overflow. *)
Definition moderate (x : Q) : Prop :=
  (- (1000000000000) <= x /\ x <= 1000000000000)%Q.

(** The last-produced value of a sensor lies within its definition. *)
Definition in_bounds (s : SensorWorker) : Prop :=
  (min_val s <= current_value s <= max_val s)%Q.

(** Two states of the same sensor: identifier, name, unit and bounds agree. *)
Definition same_definition (s s' : SensorWorker) : Prop :=
  sensor_id s' = sensor_id s /\ sensor_name s' = sensor_name s /\
  sensor_unit s' = sensor_unit s /\ min_val s' = min_val s /\
  max_val s' = max_val s.

(** What one websocket of the list does to the inboxes when a text is
    broadcast: a closed one nothing, an open one appends the text. *)
Definition carry (message : Text) (broken : gset WebSocket)
    (r : gmap WebSocket (list Text)) (ws : WebSocket) : gmap WebSocket (list Text) :=
  if decide (ws ∈ broken) then r
  else <[ws := default [] (r !! ws) ++ [message]]> r.

Definition fan_out (message : Text) (broken : gset WebSocket)
    (connections : list WebSocket) (r : gmap WebSocket (list Text)) :
    gmap WebSocket (list Text) :=
  foldl (carry message broken) r connections.

(** The world a broadcast leaves. *)
Definition broadcast_world (message : Text) (w : World) : World :=
  set_received
    (fan_out message (closed w) (active_connections w) (received w))
    (set_wire (wire w ++ [message]) w).

(** The text of the log event [broadcast_log] sends in world [w]. *)
Definition log_text (w : World) (level msg : string) : Text :=
  json_dumps (log_packet (Py.strftime_HMS (clock w)) level msg).

(** How often [ws] occurs in a list of connections. *)
Definition occurrences (ws : WebSocket) (l : list WebSocket) : nat :=
  length (filter (fun x => x = ws) l).

(** [HH:MM:SS]: two digits, a colon, two digits, a colon, two digits. *)
Definition is_digit (c : Ascii.ascii) : bool :=
  let n := Ascii.N_of_ascii c in ((48 <=? n) && (n <=? 57))%N.

Definition hms_format (s : string) : bool :=
  match s with
  | String h1 (String h2 (String c1 (String m1 (String m2
      (String c2 (String s1 (String s2 EmptyString))))))) =>
      is_digit h1 && is_digit h2 && bool_decide (c1 = ":"%char) &&
      is_digit m1 && is_digit m2 && bool_decide (c2 = ":"%char) &&
      is_digit s1 && is_digit s2
  | _ => false
  end.

(** The two wire shapes, field by field. *)
Definition is_log_event (d : Dict) : Prop :=
  exists time level message : string,
    hms_format time = true /\
    d = [("type", JStr "log"); ("time", JStr time);
         ("level", JStr level); ("message", JStr message)].

Definition is_data_event (d : Dict) : Prop :=
  exists (sid name : string) (value : Q) (unit_ timestamp : string),
    hms_format timestamp = true /\
    d = [("type", JStr "data"); ("sensor_id", JStr sid); ("name", JStr name);
         ("value", JNum value); ("unit", JStr unit_);
         ("timestamp", JStr timestamp)].

Definition wire_shaped (m : Text) : Prop :=
  match m with
  | json_dumps d =>
      (is_log_event d \/ is_data_event d) /\ ~ (is_log_event d /\ is_data_event d)
  end.

(** [needle] occurs in [hay]. *)
Definition contains (hay needle : string) : Prop :=
  exists before behind : string, hay = before +:+ needle +:+ behind.

(** The level of a log event, when the text is one. *)
Definition level_of (m : Text) : option string :=
  match m with
  | json_dumps [("type", JStr "log"); (_, JStr _); (_, JStr level); (_, JStr _)] =>
      Some level
  | _ => None
  end.

(** The world [log_to_csv] leaves: untouched when the disk fails, else the
    file with one more reading (and its header when it is new). *)
Definition csv_world (sid name : string) (value : Q) (unit_ : string)
    (w : World) : World :=
  if disk_error w then w
  else
    set_csv_file
      (Some (default [] (csv_file w)
             ++ (if bool_decide (is_Some (csv_file w)) then [] else [Header])
             ++ [Reading (clock w) sid name value unit_])) w.

(** The warnings a reading of sensor [s] raises in world [w]: none or one. *)
Definition alerts (w : World) (s : SensorWorker) (value : Q) : list Text :=
  match check_limits THRESHOLDS (sensor_id s) value with
  | ABOVE_MAX =>
      [log_text w "WARNING"
         ("HIGH LIMIT: " +:+ sensor_name s +:+ " " +:+ Py.str_float value)]
  | BELOW_MIN =>
      [log_text w "WARNING"
         ("LOW LIMIT: " +:+ sensor_name s +:+ " " +:+ Py.str_float value)]
  | NONE => []
  end.

(** The data event of a reading of sensor [s] in world [w]. *)
Definition data_text (w : World) (s : SensorWorker) (value : Q) : Text :=
  json_dumps (data_packet s value (Py.strftime_HMS (clock w))).

(** The world after the texts of [l] have been broadcast one after another. *)
Definition broadcast_all (l : list Text) (w : World) : World :=
  foldl (fun w m => broadcast_world m w) w l.

(** The world one turn of a running sensor leaves. *)
Definition iteration_world (self : nat) (draw : N) (w : World) : World :=
  let s := sensors w !!! self in
  if is_running s then
    let value := generate s draw in
    broadcast_all (alerts w s value ++ [data_text w s value])
      (csv_world (sensor_id s) (sensor_name s) value (sensor_unit s)
         (set_sensors (alter (set_current_value value) self (sensors w)) w))
  else w.

(** How one sensor may differ between two states of the program: its
    definition is kept, and its value is kept or freshly generated. *)
Definition sensor_step (s s' : SensorWorker) : Prop :=
  same_definition s s' /\
  (current_value s' = current_value s \/
   exists draw : N, current_value s' = generate s draw).

(** The invariant of the wire: every text ever broadcast has one of the two
    shapes, and every text in an inbox was broadcast. *)
Definition wire_invariant (w : World) : Prop :=
  (forall m : Text, m ∈ wire w -> wire_shaped m) /\
  (forall (ws : WebSocket) (m : Text), m ∈ inbox w ws -> m ∈ wire w).

(** The interval lies in the range the slider allows. *)
Definition interval_in_range (v : Q) : Prop := (1 # 2 <= v <= 10)%Q.

(** Two worlds that differ at most in the sensors, the inboxes and the
    wire. *)
Definition same_surroundings (w w' : World) : Prop :=
  update_interval w' = update_interval w /\
  active_connections w' = active_connections w /\
  clock w' = clock w /\
  closed w' = closed w /\
  csv_file w' = csv_file w /\
  disk_error w' = disk_error w.

(** A history file as the program writes it: the header, then readings. *)
Definition is_reading (r : CsvRow) : Prop :=
  match r with
  | Header => False
  | Reading _ _ _ _ _ => True
  end.

Definition well_formed_csv (file : option (list CsvRow)) : Prop :=
  match file with
  | None => True
  | Some rows => exists readings, rows = Header :: readings /\ Forall is_reading readings
  end.

(** What [start] or [stop] does, the flag [b] being the state it moves the
    sensor to and [msg] the text it logs for a sensor name. *)
Definition toggled (b : bool) (msg : string -> string) (self : nat) (w : World) : World :=
  let s := sensors w !!! self in
  if bool_decide (is_running s = b) then w
  else broadcast_world (log_text w "INFO" (msg (sensor_name s)))
         (set_sensors (alter (set_is_running b) self (sensors w)) w).

Definition started_message (name : string) : string :=
  "Сенсор '" +:+ name +:+ "' стартував.".

Definition stopped_message (name : string) : string :=
  "Сенсор '" +:+ name +:+ "' зупинено.".

(** The log a sensor gets when it is moved to state [b], if it moves. *)
Definition toggle_log (b : bool) (msg : string -> string) (w : World) (self : nat) : list Text :=
  let s := sensors w !!! self in
  if bool_decide (is_running s = b) then []
  else [log_text w "INFO" (msg (sensor_name s))].

(** Whether an action writes the sampling interval. *)
Definition writes_interval (a : Action) : bool :=
  match a with
  | SetInterval _ => true
  | _ => false
  end.

(** Whether an action registers websocket [ws]. *)
Definition registers (ws : WebSocket) (a : Action) : bool :=
  match a with
  | Connect x => bool_decide (x = ws)
  | _ => false
  end.

(** Whether an action unregisters websocket [ws]. *)
Definition unregisters (ws : WebSocket) (a : Action) : bool :=
  match a with
  | Disconnect x => bool_decide (x = ws)
  | _ => false
  end.

(** Whether an action registers, unregisters or closes websocket [ws]. *)
Definition touches (ws : WebSocket) (a : Action) : bool :=
  match a with
  | Connect x | Disconnect x | Break x => bool_decide (x = ws)
  | _ => false
  end.

(** Whether an action unregisters a websocket, whichever it is. *)
Definition unregisters_any (a : Action) : bool :=
  match a with
  | Disconnect _ => true
  | _ => false
  end.

(** What websocket [ws] receives of the texts [msgs] broadcast in a world
    whose list of connections and closed websockets are those of [w]. *)
Definition deliveries (w : World) (ws : WebSocket) (msgs : list Text) : list Text :=
  if decide (ws ∈ closed w) then []
  else msgs ≫= replicate (occurrences ws (active_connections w)).

(** The texts [msgs] were broadcast between [w] and [w'], to the
    connections of [w']. *)
Definition broadcast_between (msgs : list Text) (w w' : World) : Prop :=
  wire w' = wire w ++ msgs /\
  forall ws : WebSocket, inbox w' ws = inbox w ws ++ deliveries w' ws msgs.

(** The texts a loop of [start] or [stop] broadcasts between two worlds with
    the same surroundings. *)
Definition loop_between (w w' : World) : Prop :=
  same_surroundings w w' /\
  exists msgs, Forall wire_shaped msgs /\ broadcast_between msgs w w'.

(** * Properties *)

(** ** Numbers *)

Section Numbers.
Local Open Scope Q_scope.

Lemma gt_true (a b : Q) : Py.gt a b = true <-> b < a.
Proof.
  unfold Py.gt. rewrite negb_true_iff, <- not_true_iff_false, Qle_bool_iff.
  split; [apply Qnot_le_lt | apply Qlt_not_le].
Qed.

Lemma gt_false (a b : Q) : Py.gt a b = false <-> a <= b.
Proof. unfold Py.gt. rewrite negb_false_iff. apply Qle_bool_iff. Qed.

Lemma lt_true (a b : Q) : Py.lt a b = true <-> a < b.
Proof. apply gt_true. Qed.

Lemma lt_false (a b : Q) : Py.lt a b = false <-> b <= a.
Proof. apply gt_false. Qed.

Lemma tenths_le (a b : Z) : a # 10 <= b # 10 <-> (a <= b)%Z.
Proof. unfold Qle; simpl. lia. Qed.

Lemma times_ten (k : Z) (x : Q) : x == k # 10 -> x * 10 == inject_Z k.
Proof.
  intros ->. unfold Qeq, Qmult, inject_Z; simpl. lia.
Qed.

(** Rounding never crosses an integer: below. *)
Lemma round_half_even_ge (k : Z) (x : Q) :
  inject_Z k <= x -> (k <= Py.round_half_even x)%Z.
Proof.
  intros H. apply Qfloor_resp_le in H. rewrite Qfloor_Z in H.
  unfold Py.round_half_even.
  destruct (x - inject_Z (Qfloor x) ?= 1 # 2); [destruct (Z.even _) | |]; lia.
Qed.

(** Rounding never crosses an integer: above. *)
Lemma round_half_even_le (k : Z) (x : Q) :
  x <= inject_Z k -> (Py.round_half_even x <= k)%Z.
Proof.
  intros H. unfold Py.round_half_even.
  assert (Hf : (Qfloor x <= k)%Z).
  { apply Qfloor_resp_le in H. now rewrite Qfloor_Z in H. }
  assert (Hup : inject_Z (Qfloor x) < x -> (Qfloor x + 1 <= k)%Z).
  { intros Hlt. assert (Hk : inject_Z (Qfloor x) < inject_Z k) by lra.
    rewrite <- Zlt_Qlt in Hk. lia. }
  destruct (x - inject_Z (Qfloor x) ?= 1 # 2) eqn:E.
  - destruct (Z.even _); [lia |]. apply Hup.
    apply Qeq_alt in E. lra.
  - exact Hf.
  - apply Hup. apply Qgt_alt in E. lra.
Qed.

(** [round(x, 1)] stays between bounds that have one decimal place. *)
Lemma round1_between (lo hi x : Q) :
  one_decimal lo -> one_decimal hi -> lo <= x <= hi ->
  lo <= Py.round1 x <= hi.
Proof.
  intros [kl Hl] [kh Hh] [Hlo Hhi]. unfold Py.round1. split.
  - rewrite Hl. apply tenths_le, round_half_even_ge.
    rewrite <- (times_ten _ _ Hl). lra.
  - rewrite Hh. apply tenths_le, round_half_even_le.
    rewrite <- (times_ten _ _ Hh). lra.
Qed.

Lemma random_range (draw : N) : 0 <= Py.random draw < 1.
Proof.
  unfold Py.random, Qle, Qlt; simpl.
  pose proof (N.mod_lt draw (2 ^ 53) ltac:(discriminate)) as H.
  change (Z.pos (2 ^ 53)) with (Z.of_N (2 ^ 53)).
  generalize dependent (draw mod 2 ^ 53)%N. generalize (2 ^ 53)%N. lia.
Qed.

Lemma uniform_between (a b : Q) (draw : N) :
  a <= b -> a <= Py.uniform a b draw <= b.
Proof.
  intros Hab. unfold Py.uniform.
  destruct (random_range draw) as [H0 H1].
  assert (0 <= (b - a) * Py.random draw) by (apply Qmult_le_0_compat; lra).
  assert ((b - a) * Py.random draw <= (b - a) * 1).
  { rewrite !(Qmult_comm (b - a)). apply Qmult_le_compat_r; lra. }
  lra.
Qed.

(** The generation step stays within bounds that have one decimal place. *)
Lemma generate_between (s : SensorWorker) (draw : N) :
  one_decimal (min_val s) -> one_decimal (max_val s) ->
  min_val s <= max_val s ->
  min_val s <= generate s draw <= max_val s.
Proof.
  intros Hl Hh Hle. unfold generate.
  apply round1_between; auto using uniform_between.
Qed.

Lemma integer_one_decimal (n : Z) : one_decimal (inject_Z n).
Proof. exists (n * 10)%Z. unfold Qeq, inject_Z; simpl. lia. Qed.

(** [max(lo, min(hi, v))] is the clamp of the specification. *)
Lemma max_min_clamp (v lo hi : Q) :
  lo <= hi -> Py.max lo (Py.min hi v) == clamp_spec v lo hi.
Proof.
  intros Hle. unfold Py.max, Py.min, clamp_spec.
  destruct (Py.lt v hi) eqn:E1.
  - apply lt_true in E1.
    destruct (Py.gt v lo) eqn:E2.
    + apply gt_true in E2.
      destruct (Qlt_le_dec v lo); [lra |]. destruct (Qlt_le_dec hi v); lra.
    + apply gt_false in E2.
      destruct (Qlt_le_dec v lo); [lra |]. destruct (Qlt_le_dec hi v); lra.
  - apply lt_false in E1.
    destruct (Py.gt hi lo) eqn:E2.
    + apply gt_true in E2.
      destruct (Qlt_le_dec v lo); [lra |]. destruct (Qlt_le_dec hi v); lra.
    + apply gt_false in E2.
      destruct (Qlt_le_dec v lo); [lra |]. destruct (Qlt_le_dec hi v); lra.
Qed.

End Numbers.

(** ** The connection manager *)

Lemma set_received_same (w : World) : set_received (received w) w = w.
Proof. now destruct w. Qed.

Lemma occurrences_cons (ws x : WebSocket) (l : list WebSocket) :
  occurrences ws (x :: l) =
  if decide (x = ws) then S (occurrences ws l) else occurrences ws l.
Proof.
  unfold occurrences. rewrite filter_cons. now destruct (decide (x = ws)).
Qed.

Lemma occurrences_elem (ws : WebSocket) (l : list WebSocket) :
  ws ∈ l -> 0 < occurrences ws l.
Proof.
  induction 1 as [x l | x y l _ IH]; rewrite occurrences_cons.
  - rewrite decide_True by done. lia.
  - destruct (decide (y = x)); lia.
Qed.

Lemma fan_out_cons (message : Text) (broken : gset WebSocket) (x : WebSocket)
    (l : list WebSocket) (r : gmap WebSocket (list Text)) :
  fan_out message broken (x :: l) r =
  fan_out message broken l (carry message broken r x).
Proof. reflexivity. Qed.

(** The guarded sends of [broadcast]: no exception leaves the loop, and the
    inboxes are those of [fan_out]. *)
Lemma guarded_sends (message : Text) (l : list WebSocket) (w : World) :
  for_each l (fun connection =>
    try_except (send_text connection message) (fun _ => mret ())) w
  = (Ok (), set_received (fan_out message (closed w) l (received w)) w).
Proof.
  revert w. induction l as [| ws l IH]; intros w.
  - simpl. now rewrite set_received_same.
  - cbn [for_each]. unfold mbind, M_bind at 1.
    unfold try_except at 1, send_text at 1.
    rewrite fan_out_cons. unfold carry.
    destruct (decide (ws ∈ closed w)) as [Hin | Hout].
    + unfold mret, M_ret. apply IH.
    + rewrite IH. reflexivity.
Qed.

Lemma broadcast_eq (message : Text) (w : World) :
  broadcast message w = (Ok (), broadcast_world message w).
Proof.
  unfold broadcast, mbind, M_bind, modify, gets.
  now rewrite guarded_sends.
Qed.

Lemma broadcast_log_eq (level msg : string) (w : World) :
  broadcast_log level msg w = (Ok (), broadcast_world (log_text w level msg) w).
Proof.
  unfold broadcast_log, mbind, M_bind, gets. apply broadcast_eq.
Qed.

(** What [fan_out] leaves in the inbox of a websocket. *)
Lemma fan_out_lookup (message : Text) (broken : gset WebSocket)
    (l : list WebSocket) (r : gmap WebSocket (list Text)) (ws : WebSocket) :
  default [] (fan_out message broken l r !! ws) =
  default [] (r !! ws) ++
  (if decide (ws ∈ broken) then []
   else replicate (occurrences ws l) message).
Proof.
  revert r. induction l as [| x l IH]; intros r.
  - simpl. destruct (decide _); now rewrite app_nil_r.
  - rewrite fan_out_cons, IH, occurrences_cons. unfold carry.
    destruct (decide (x ∈ broken)) as [Hx | Hx].
    + destruct (decide (ws ∈ broken)) as [Hw | Hw]; [done |].
      rewrite decide_False; [done | congruence].
    + destruct (decide (x = ws)) as [-> | Hne].
      * rewrite lookup_insert_eq. cbn [default].
        destruct (decide (ws ∈ broken)); [done |].
        unfold id. now rewrite <- app_assoc.
      * now rewrite lookup_insert_ne.
Qed.

Lemma broadcast_world_inbox (message : Text) (w : World) (ws : WebSocket) :
  inbox (broadcast_world message w) ws =
  inbox w ws ++
  (if decide (ws ∈ closed w) then []
   else replicate (occurrences ws (active_connections w)) message).
Proof. unfold inbox. cbn. apply fan_out_lookup. Qed.

(** C3. Whatever websockets are closed, [broadcast] returns normally, leaves
    the list of connections as it was, hands the text to every open
    websocket of the list (once per occurrence), and a closed one receives
    nothing: a failing send stops neither the loop nor the caller, and
    removes nobody. *)
Theorem broadcast_survives_failures (message : Text) (w : World) :
  exists w',
    broadcast message w = (Ok (), w') /\
    active_connections w' = active_connections w /\
    closed w' = closed w /\
    forall ws : WebSocket,
      (ws ∈ closed w -> inbox w' ws = inbox w ws) /\
      (ws ∉ closed w ->
         inbox w' ws =
         inbox w ws ++ replicate (occurrences ws (active_connections w)) message) /\
      (ws ∈ active_connections w -> ws ∉ closed w ->
         last (inbox w' ws) = Some message).
Proof.
  exists (broadcast_world message w).
  split; [apply broadcast_eq |]. do 2 (split; [reflexivity |]).
  intros ws. rewrite broadcast_world_inbox.
  destruct (decide (ws ∈ closed w)) as [Hin | Hout].
  - split; [intros _; apply app_nil_r |]. split; intros; done.
  - split; [done |]. split; [done |]. intros Hreg _.
    apply occurrences_elem in Hreg.
    destruct (occurrences ws (active_connections w)) as [| n]; [lia |].
    rewrite replicate_S_end, app_assoc. apply last_snoc.
Qed.

(** ** Equations of the operations *)

Lemma log_to_csv_eq (sid name : string) (value : Q) (unit_ : string) (w : World) :
  log_to_csv sid name value unit_ w = (Ok (), csv_world sid name value unit_ w).
Proof.
  unfold log_to_csv, csv_world, mbind, M_bind, try_except, gets, modify, raise.
  cbn. now destruct (disk_error w).
Qed.

Lemma broadcast_all_app (l1 l2 : list Text) (w : World) :
  broadcast_all (l1 ++ l2) w = broadcast_all l2 (broadcast_all l1 w).
Proof. apply foldl_app. Qed.

Lemma start_eq (self : nat) (w : World) :
  start self w =
  (Ok (),
   let s := sensors w !!! self in
   if is_running s then w
   else broadcast_world
          (log_text w "INFO" ("Сенсор '" +:+ sensor_name s +:+ "' стартував."))
          (set_sensors (alter (set_is_running true) self (sensors w)) w)).
Proof.
  unfold start, getattr, setattr, when, mbind, M_bind, gets, modify. cbn.
  destruct (is_running _); cbn; [reflexivity |].
  now rewrite broadcast_log_eq.
Qed.

Lemma stop_eq (self : nat) (w : World) :
  stop self w =
  (Ok (),
   let s := sensors w !!! self in
   if is_running s then
     broadcast_world
       (log_text w "INFO" ("Сенсор '" +:+ sensor_name s +:+ "' зупинено."))
       (set_sensors (alter (set_is_running false) self (sensors w)) w)
   else w).
Proof.
  unfold stop, getattr, setattr, when, mbind, M_bind, gets, modify. cbn.
  destruct (is_running _); cbn; [| reflexivity].
  now rewrite broadcast_log_eq.
Qed.

Lemma run_ready_eq (self : nat) (w : World) :
  run_ready self w =
  (Ok (),
   broadcast_world
     (log_text w "INFO"
        ("Сенсор '" +:+ sensor_name (sensors w !!! self) +:+ "' готовий.")) w).
Proof.
  unfold run_ready, getattr, mbind, M_bind, gets. now rewrite broadcast_log_eq.
Qed.

Lemma csv_world_clock sid name value unit_ (w : World) :
  clock (csv_world sid name value unit_ w) = clock w.
Proof. unfold csv_world. now destruct (disk_error w). Qed.

Lemma run_iteration_eq (self : nat) (draw : N) (w : World) :
  run_iteration self draw w =
  (Ok (update_interval w), iteration_world self draw w).
Proof.
  unfold run_iteration, iteration_world, getattr, setattr, when.
  unfold mbind, M_bind, gets, modify. cbn.
  destruct (is_running _); cbn; [| reflexivity].
  rewrite log_to_csv_eq.
  set (s := sensors w !!! self). set (value := generate s draw).
  set (w1 := csv_world _ _ _ _ _).
  assert (Hc : clock w1 = clock w) by (unfold w1; now rewrite csv_world_clock).
  assert (Hi : update_interval w1 = update_interval w).
  { unfold w1, csv_world. cbn. now destruct (disk_error w). }
  rewrite broadcast_all_app. unfold alerts.
  destruct (check_limits _ _ _).
  - rewrite broadcast_log_eq, broadcast_eq. cbn.
    unfold data_text, log_text. cbn. now rewrite Hc, Hi.
  - rewrite broadcast_log_eq, broadcast_eq. cbn.
    unfold data_text, log_text. cbn. now rewrite Hc, Hi.
  - unfold mret, M_ret. rewrite broadcast_eq. cbn.
    unfold data_text. now rewrite Hc, Hi.
Qed.

Lemma set_interval_eq (interval : Q) (w : World) :
  set_interval interval w =
  let new_interval := Py.max (1 # 2) (Py.min 10 interval) in
  (Ok [("status", JStr "updated"); ("interval", JNum new_interval)],
   broadcast_world
     (log_text w "SYSTEM"
        ("Швидкість оновлення змінено на " +:+ Py.str_float new_interval +:+ " сек"))
     (set_update_interval new_interval w)).
Proof.
  unfold set_interval, mbind, M_bind, modify. cbn.
  now rewrite broadcast_log_eq.
Qed.

Lemma connect_eq (ws : WebSocket) (w : World) :
  connect ws w =
  (Ok (),
   broadcast_world
     (log_text w "SYSTEM"
        ("Клієнт підключено. Інтервал оновлення: "
         +:+ Py.str_float (update_interval w) +:+ "с"))
     (set_active_connections (active_connections w ++ [ws]) w)).
Proof.
  unfold connect, accept, mbind, M_bind, mret, M_ret, modify, gets. cbn.
  now rewrite broadcast_log_eq.
Qed.

(** ** What an operation adds to the wire *)

Lemma wire_broadcast_all (l : list Text) (w : World) :
  wire (broadcast_all l w) = wire w ++ l.
Proof.
  revert w. induction l as [| m l IH]; intros w; cbn.
  - now rewrite app_nil_r.
  - unfold broadcast_all in IH. rewrite IH. cbn. now rewrite <- app_assoc.
Qed.

Lemma sensors_broadcast_all (l : list Text) (w : World) :
  sensors (broadcast_all l w) = sensors w.
Proof.
  revert w. induction l as [| m l IH]; intros w; cbn; [done |].
  unfold broadcast_all in IH. now rewrite IH.
Qed.

Lemma wire_csv_world sid name value unit_ (w : World) :
  wire (csv_world sid name value unit_ w) = wire w.
Proof. unfold csv_world. now destruct (disk_error w). Qed.

Lemma sensors_csv_world sid name value unit_ (w : World) :
  sensors (csv_world sid name value unit_ w) = sensors w.
Proof. unfold csv_world. now destruct (disk_error w). Qed.

Lemma wire_iteration (self : nat) (draw : N) (w : World) :
  wire (iteration_world self draw w) =
  wire w ++
  (let s := sensors w !!! self in
   if is_running s then
     alerts w s (generate s draw) ++ [data_text w s (generate s draw)]
   else []).
Proof.
  unfold iteration_world. cbn zeta. destruct (is_running _).
  - now rewrite wire_broadcast_all, wire_csv_world.
  - now rewrite app_nil_r.
Qed.

Lemma sensors_iteration (self : nat) (draw : N) (w : World) :
  sensors (iteration_world self draw w) =
  let s := sensors w !!! self in
  if is_running s then
    alter (set_current_value (generate s draw)) self (sensors w)
  else sensors w.
Proof.
  unfold iteration_world. cbn zeta. destruct (is_running _); [| done].
  now rewrite sensors_broadcast_all, sensors_csv_world.
Qed.

(** ** The sampling interval *)

(** C2. [set_interval] always answers "updated": it stores the requested
    value clamped into [0.5, 10.0] as the process-wide interval and returns
    it; a request of 0.2 gives 0.5 and a request of 99 gives 10.0. *)
Theorem set_interval_clamps :
  (forall (v : Q) (w : World),
     exists (r : Q) (w' : World),
       set_interval v w =
         (Ok [("status", JStr "updated"); ("interval", JNum r)], w') /\
       update_interval w' = r /\
       (r == clamp_spec v (1 # 2) 10)%Q) /\
  (forall w : World,
     (set_interval (2 # 10) w).1 =
       Ok [("status", JStr "updated"); ("interval", JNum (1 # 2))] /\
     update_interval (set_interval (2 # 10) w).2 = (1 # 2)%Q) /\
  (forall w : World,
     (set_interval 99 w).1 =
       Ok [("status", JStr "updated"); ("interval", JNum 10)] /\
     update_interval (set_interval 99 w).2 = 10%Q).
Proof.
  split; [| split].
  - intros v w. rewrite set_interval_eq. cbn zeta.
    eexists _, _. split; [reflexivity |]. split; [reflexivity |].
    apply max_min_clamp. unfold Qle; simpl; lia.
  - intros w. rewrite set_interval_eq. split; reflexivity.
  - intros w. rewrite set_interval_eq. split; reflexivity.
Qed.

(** ** The limit check *)

Lemma gt_proper (v v' x : Q) : (v == v')%Q -> Py.gt v x = Py.gt v' x.
Proof.
  intros E. destruct (Py.gt v x) eqn:E1, (Py.gt v' x) eqn:E2; try reflexivity.
  - apply gt_true in E1. apply gt_false in E2. lra.
  - apply gt_false in E1. apply gt_true in E2. lra.
Qed.

Lemma lt_proper (v v' x : Q) : (v == v')%Q -> Py.lt v x = Py.lt v' x.
Proof.
  intros E. destruct (Py.lt v x) eqn:E1, (Py.lt v' x) eqn:E2; try reflexivity.
  - apply lt_true in E1. apply lt_false in E2. lra.
  - apply lt_false in E1. apply lt_true in E2. lra.
Qed.

Lemma alerts_at_most_one (w : World) (s : SensorWorker) (value : Q) :
  length (alerts w s value) <= 1.
Proof. unfold alerts. destruct (check_limits _ _ _); simpl; lia. Qed.

Lemma string_app_assoc (a b c : string) : (a +:+ b) +:+ c = a +:+ b +:+ c.
Proof.
  induction a as [| x a IH]; [done |].
  change (String x ((a +:+ b) +:+ c) = String x (a +:+ b +:+ c)). now f_equal.
Qed.

Lemma string_app_nil_r (a : string) : a +:+ "" = a.
Proof.
  induction a as [| x a IH]; [done |].
  change (String x (a +:+ "") = String x a). now f_equal.
Qed.

Lemma contains_suffix (before needle : string) :
  contains (before +:+ needle) needle.
Proof. exists before, EmptyString. now rewrite string_app_nil_r. Qed.

(** C4. The limit check is a function of identifier, value and table alone:
    equal values are classified alike, and the classification is exactly
    one of three.  It is ABOVE_MAX exactly when the identifier has a
    non-empty entry and the value exceeds its upper bound (999 when the
    entry has none); BELOW_MIN exactly when the identifier has a non-empty
    entry, the value does not exceed the upper bound and is under the lower
    bound (-999 when the entry has none); NONE in every other case.  The
    upper bound is looked at first: a value beyond both bounds of a
    misconfigured entry is ABOVE_MAX.  A turn of a running sensor of the
    program sends, for the value it stores, the one WARNING of the value's
    classification, if any, and then the data event.  With
    [temp: {max: 30, min: -5}], 32.4 is ABOVE_MAX, and a turn of the [temp]
    sensor that stores 32.4 sends exactly one WARNING log event, whose
    message contains "32.4", before its data event. *)
Theorem threshold_evaluation :
  (forall (table : gmap string (gmap string Q)) (sid : string) (v v' : Q),
     (v == v')%Q -> check_limits table sid v = check_limits table sid v') /\
  (forall (table : gmap string (gmap string Q)) (sid : string) (v : Q),
     check_limits table sid v = ABOVE_MAX <->
     exists limits : gmap string Q,
       table !! sid = Some limits /\ limits <> ∅ /\
       (default 999 (limits !! "max") < v)%Q) /\
  (forall (table : gmap string (gmap string Q)) (sid : string) (v : Q),
     check_limits table sid v = BELOW_MIN <->
     exists limits : gmap string Q,
       table !! sid = Some limits /\ limits <> ∅ /\
       (v <= default 999 (limits !! "max"))%Q /\
       (v < default (-999) (limits !! "min"))%Q) /\
  (forall (table : gmap string (gmap string Q)) (sid : string) (v : Q),
     check_limits table sid v = NONE <->
     table !! sid = None \/ table !! sid = Some ∅ \/
     exists limits : gmap string Q,
       table !! sid = Some limits /\
       (default (-999) (limits !! "min") <= v)%Q /\
       (v <= default 999 (limits !! "max"))%Q) /\
  (forall (table : gmap string (gmap string Q)) (sid : string)
          (limits : gmap string Q) (v : Q),
     table !! sid = Some limits ->
     (default 999 (limits !! "max") < v)%Q ->
     (v < default (-999) (limits !! "min"))%Q ->
     check_limits table sid v = ABOVE_MAX) /\
  (forall (w : World) (self : nat) (s : SensorWorker) (draw : N)
          (i : nat) (s0 : SensorWorker),
     sensors w !! self = Some s -> is_running s = true ->
     sensors_list !! i = Some s0 -> same_definition s0 s ->
     exists v : Q,
       sensors (after (Iteration self draw) w) !! self =
         Some (set_current_value v s) /\
       wire (after (Iteration self draw) w) =
       wire w ++
       match check_limits THRESHOLDS (sensor_id s) v with
       | ABOVE_MAX =>
           [log_text w "WARNING"
              ("HIGH LIMIT: " +:+ sensor_name s +:+ " " +:+ Py.str_float v)]
       | BELOW_MIN =>
           [log_text w "WARNING"
              ("LOW LIMIT: " +:+ sensor_name s +:+ " " +:+ Py.str_float v)]
       | NONE => []
       end ++ [data_text w s v]) /\
  check_limits {[ "temp" := {[ "max" := 30%Q; "min" := (-5)%Q ]} ]} "temp" (324 # 10)
    = ABOVE_MAX /\
  (forall (w : World) (self : nat) (s : SensorWorker) (draw : N),
     sensors w !! self = Some s -> sensor_id s = "temp" ->
     is_running s = true ->
     current_value <$> sensors (after (Iteration self draw) w) !! self =
       Some (324 # 10)%Q ->
     exists message : string,
       contains message "32.4" /\
       level_of (log_text w "WARNING" message) = Some "WARNING" /\
       wire (after (Iteration self draw) w) =
       wire w ++ [log_text w "WARNING" message; data_text w s (324 # 10)]).
Proof.
  assert (Hafter : forall self draw w,
            after (Iteration self draw) w = iteration_world self draw w).
  { intros. unfold after, perform, mbind, M_bind. now rewrite run_iteration_eq. }
  assert (Hstored : forall w self s draw,
            sensors w !! self = Some s -> is_running s = true ->
            sensors (iteration_world self draw w) !! self =
              Some (set_current_value (generate s draw) s)).
  { intros w self s draw Hs Hrun. rewrite sensors_iteration. cbn zeta.
    rewrite (list_lookup_total_correct _ _ _ Hs), Hrun.
    now rewrite list_lookup_alter_eq, Hs. }
  split; [| split; [| split; [| split; [| split; [| split; [| split]]]]]].
  - intros table sid v v' E. unfold check_limits.
    destruct (table !! sid) as [limits |]; [| done].
    destruct (bool_decide _); [done |].
    now rewrite (gt_proper v v' _ E), (lt_proper v v' _ E).
  - intros table sid v. unfold check_limits. split.
    + destruct (table !! sid) as [limits |]; [| done].
      destruct (bool_decide (limits = ∅)) eqn:Ee; [done |].
      apply bool_decide_eq_false in Ee.
      destruct (Py.gt v _) eqn:Eg.
      * intros _. exists limits. apply gt_true in Eg. done.
      * destruct (Py.lt v _); done.
    + intros (limits & -> & Hne & Hgt).
      rewrite bool_decide_eq_false_2 by done.
      apply gt_true in Hgt. now rewrite Hgt.
  - intros table sid v. unfold check_limits. split.
    + destruct (table !! sid) as [limits |]; [| done].
      destruct (bool_decide (limits = ∅)) eqn:Ee; [done |].
      apply bool_decide_eq_false in Ee.
      destruct (Py.gt v _) eqn:Eg; [done |].
      destruct (Py.lt v _) eqn:El; [| done].
      intros _. exists limits. apply gt_false in Eg. apply lt_true in El. done.
    + intros (limits & -> & Hne & Hle & Hlt).
      rewrite bool_decide_eq_false_2 by done.
      apply gt_false in Hle. apply lt_true in Hlt. now rewrite Hle, Hlt.
  - intros table sid v. unfold check_limits. split.
    + destruct (table !! sid) as [limits |]; [| now left].
      destruct (bool_decide (limits = ∅)) eqn:Ee.
      { apply bool_decide_eq_true in Ee. subst. intros _. right. now left. }
      destruct (Py.gt v _) eqn:Eg; [done |].
      destruct (Py.lt v _) eqn:El; [done |].
      intros _. right. right. exists limits.
      apply gt_false in Eg. apply lt_false in El. done.
    + intros [-> | [-> | (limits & -> & Hlo & Hhi)]]; [done | done |].
      destruct (bool_decide _); [done |].
      apply gt_false in Hhi. apply lt_false in Hlo. now rewrite Hhi, Hlo.
  - intros table sid limits v Hl Hgt Hlt. unfold check_limits. rewrite Hl.
    destruct (bool_decide (limits = ∅)) eqn:Ee.
    { apply bool_decide_eq_true in Ee. subst. exfalso.
      rewrite !lookup_empty in Hgt, Hlt. cbn in Hgt, Hlt. lra. }
    apply gt_true in Hgt. now rewrite Hgt.
  - intros w self s draw i s0 Hs Hrun _ _. exists (generate s draw).
    rewrite Hafter. split; [now apply Hstored |].
    rewrite wire_iteration. cbn zeta.
    now rewrite (list_lookup_total_correct _ _ _ Hs), Hrun.
  - reflexivity.
  - intros w self s draw Hs Hid Hrun Hv.
    rewrite Hafter in Hv |- *.
    rewrite (Hstored w self s draw Hs Hrun) in Hv.
    change (Some (generate s draw) = Some (324 # 10)%Q) in Hv.
    apply (inj Some) in Hv.
    exists ("HIGH LIMIT: " +:+ sensor_name s +:+ " " +:+ "32.4").
    split; [| split; [reflexivity |]].
    + rewrite <- !string_app_assoc. apply contains_suffix.
    + rewrite wire_iteration. cbn zeta.
      rewrite (list_lookup_total_correct _ _ _ Hs), Hrun, Hv.
      unfold alerts. rewrite Hid. reflexivity.
Qed.

(** Scenario A on the program as loaded: a draw that makes [temp] read 32.4. *)
Example scenario_A :
  wire (after (Iteration 0 8486000000000000) (initial 3723 None false)) =
  [ json_dumps [("type", JStr "log"); ("time", JStr "01:02:03");
                ("level", JStr "WARNING");
                ("message", JStr "HIGH LIMIT: Температура 32.4")];
    json_dumps [("type", JStr "data"); ("sensor_id", JStr "temp");
                ("name", JStr "Температура"); ("value", JNum (324 # 10));
                ("unit", JStr "°C"); ("timestamp", JStr "01:02:03")] ].
Proof. vm_compute. reflexivity. Qed.

Lemma sensors_list_well_formed :
  Forall (fun s => one_decimal (min_val s) /\ one_decimal (max_val s) /\
                   (min_val s <= max_val s)%Q) sensors_list.
Proof.
  repeat (constructor;
          [split; [apply integer_one_decimal |
                   split; [apply integer_one_decimal | discriminate]] |]).
  constructor.
Qed.

Lemma sensors_list_moderate :
  Forall (fun s => moderate (min_val s) /\ moderate (max_val s)) sensors_list.
Proof.
  repeat (constructor; [repeat split; discriminate |]).
  constructor.
Qed.

(** C7, as the code has it.  A sensor without an entry in the table never
    gets a classification, and its turn sends its data event only.  An entry
    without [min] never gives BELOW_MIN for a value at or above a lower bound
    greater than -999, an entry without [max] never gives ABOVE_MAX for a
    value at or below an upper bound smaller than 999.  The bounds of every
    sensor that has an entry lie strictly between -999 and 999, so no value
    such a sensor generates is ever classified against a bound its entry
    does not have. *)
Theorem no_alert_without_bound :
  (forall (table : gmap string (gmap string Q)) (sid : string) (v : Q),
     table !! sid = None -> check_limits table sid v = NONE) /\
  (forall (w : World) (self : nat) (draw : N),
     THRESHOLDS !! sensor_id (sensors w !!! self) = None ->
     wire (after (Iteration self draw) w) =
     wire w ++
     (let s := sensors w !!! self in
      if is_running s then [data_text w s (generate s draw)] else [])) /\
  (forall (table : gmap string (gmap string Q)) (sid : string)
          (limits : gmap string Q) (lo v : Q),
     table !! sid = Some limits -> limits !! "min" = None ->
     (-999 < lo)%Q -> (lo <= v)%Q ->
     check_limits table sid v <> BELOW_MIN) /\
  (forall (table : gmap string (gmap string Q)) (sid : string)
          (limits : gmap string Q) (hi v : Q),
     table !! sid = Some limits -> limits !! "max" = None ->
     (hi < 999)%Q -> (v <= hi)%Q ->
     check_limits table sid v <> ABOVE_MAX) /\
  Forall (fun s => is_Some (THRESHOLDS !! sensor_id s) ->
                   (-999 < min_val s)%Q /\ (max_val s < 999)%Q) sensors_list /\
  (forall (s : SensorWorker) (limits : gmap string Q) (draw : N),
     s ∈ sensors_list -> THRESHOLDS !! sensor_id s = Some limits ->
     (limits !! "min" = None ->
      check_limits THRESHOLDS (sensor_id s) (generate s draw) <> BELOW_MIN) /\
     (limits !! "max" = None ->
      check_limits THRESHOLDS (sensor_id s) (generate s draw) <> ABOVE_MAX)).
Proof.
  assert (Hmin : forall (table : gmap string (gmap string Q)) (sid : string)
            (limits : gmap string Q) (lo v : Q),
            table !! sid = Some limits -> limits !! "min" = None ->
            (-999 < lo)%Q -> (lo <= v)%Q ->
            check_limits table sid v <> BELOW_MIN).
  { intros table sid limits lo v Ht Hmin Hlo Hv. unfold check_limits.
    rewrite Ht, Hmin. cbn [default].
    destruct (bool_decide _); [done |].
    destruct (Py.gt _ _); [done |].
    destruct (Py.lt v (-999)) eqn:E; [| done].
    apply lt_true in E. lra. }
  assert (Hmax : forall (table : gmap string (gmap string Q)) (sid : string)
            (limits : gmap string Q) (hi v : Q),
            table !! sid = Some limits -> limits !! "max" = None ->
            (hi < 999)%Q -> (v <= hi)%Q ->
            check_limits table sid v <> ABOVE_MAX).
  { intros table sid limits hi v Ht Hmax Hhi Hv. unfold check_limits.
    rewrite Ht, Hmax. cbn [default].
    destruct (bool_decide _); [done |].
    destruct (Py.gt v 999) eqn:E.
    - apply gt_true in E. lra.
    - now destruct (Py.lt _ _). }
  assert (Hin : Forall (fun s => is_Some (THRESHOLDS !! sensor_id s) ->
                   (-999 < min_val s)%Q /\ (max_val s < 999)%Q) sensors_list).
  { repeat (constructor;
            [first [ intros _; split; reflexivity
                   | intros [x Hx]; vm_compute in Hx; discriminate Hx ] |]).
    constructor. }
  split; [| split; [| split; [| split; [| split]]]]; [| | exact Hmin | exact Hmax | exact Hin |].
  - intros table sid v H. unfold check_limits. now rewrite H.
  - intros w self draw H.
    unfold after, perform, mbind, M_bind. rewrite run_iteration_eq. cbn.
    rewrite wire_iteration. cbn zeta. unfold alerts, check_limits.
    now rewrite H.
  - intros s limits draw Hs Hl.
    pose proof (proj1 (Forall_forall _ _) Hin s Hs (ex_intro _ limits Hl)) as [Hlo Hhi].
    pose proof (proj1 (Forall_forall _ _) sensors_list_well_formed s Hs)
      as (Hd1 & Hd2 & Hle).
    destruct (generate_between s draw Hd1 Hd2 Hle) as [Hg1 Hg2].
    split; intros Hnone.
    + exact (Hmin _ _ _ _ _ Hl Hnone Hlo Hg1).
    + exact (Hmax _ _ _ _ _ Hl Hnone Hhi Hg2).
Qed.

(** C7 fails as stated for the seven sensors: the pressure sensor generates
    between 980 and 1050, which is not inside (-999, 999). *)
Lemma pressure_bounds_exceed_default :
  exists s : SensorWorker,
    s ∈ sensors_list /\ sensor_id s = "press" /\
    max_val s = 1050%Q /\ ~ (max_val s < 999)%Q.
Proof.
  exists (SensorWorker_init "press" "Тиск" "hPa" 980 1050).
  split; [| split; [reflexivity | split; [reflexivity |]]].
  - apply list_elem_of_lookup. now exists 3.
  - cbn. unfold Qlt; simpl. lia.
Qed.

(** ** Unregistering an observer *)

Lemma list_remove_absent (ws : WebSocket) (l : list WebSocket) :
  ws ∉ l -> list_remove ws l = None.
Proof.
  induction l as [| y l IH]; intros H; [done |]. cbn.
  apply not_elem_of_cons in H as [Hne Hl].
  rewrite decide_False by congruence. now rewrite IH.
Qed.

Lemma list_remove_present (ws : WebSocket) (l : list WebSocket) :
  ws ∈ l ->
  exists l1 l2, l = l1 ++ ws :: l2 /\ (ws ∉ l1) /\ list_remove ws l = Some (l1 ++ l2).
Proof.
  induction l as [| y l IH]; intros H; [by apply elem_of_nil in H |]. cbn.
  destruct (decide (y = ws)) as [-> | Hne].
  - exists [], l. repeat split; [apply not_elem_of_nil].
  - apply elem_of_cons in H as [-> | H]; [done |].
    destruct (IH H) as (l1 & l2 & -> & Hl1 & ->).
    exists (y :: l1), l2. repeat split.
    apply not_elem_of_cons. split; [congruence | done].
Qed.

(** C5, as the code has it.  Removing an observer that is not in the list
    changes nothing, but raises [ValueError] to the caller; removing one
    that is in the list returns normally and takes its first occurrence
    out. *)
Theorem disconnect_absent_raises (ws : WebSocket) (w : World) :
  (ws ∉ active_connections w -> disconnect ws w = (Raise ValueError, w)) /\
  (ws ∈ active_connections w ->
   exists l1 l2,
     active_connections w = l1 ++ ws :: l2 /\ (ws ∉ l1) /\
     disconnect ws w = (Ok (), set_active_connections (l1 ++ l2) w)).
Proof.
  unfold disconnect. split; intros H.
  - now rewrite list_remove_absent.
  - destruct (list_remove_present _ _ H) as (l1 & l2 & E & Hl1 & ->).
    now exists l1, l2.
Qed.

(** C5 fails as stated: with no observer registered, unregistering one ends
    in an exception instead of returning. *)
Lemma disconnect_absent_is_an_error :
  (7 ∉ active_connections (initial 0 None false)) /\
  (disconnect 7 (initial 0 None false)).1 = Raise ValueError /\
  (disconnect 7 (initial 0 None false)).1 <> Ok ().
Proof.
  split; [apply not_elem_of_nil |]. split; [reflexivity | discriminate].
Qed.

(** ** Starting and stopping a sensor *)

(** C8. A start or stop command for an identifier that is not in the sensor
    map returns normally and leaves the whole state as it was: no sensor is
    touched and nothing is sent. *)
Theorem unknown_sensor_ignored (sid : string) (w : World) :
  sensors_map !! sid = None ->
  start_sensor sid w = (Ok (), w) /\ stop_sensor sid w = (Ok (), w).
Proof.
  intros H. unfold start_sensor, stop_sensor. now rewrite H.
Qed.

Lemma unknown_sensor_ignored_witness :
  start_sensor "barometer" (initial 0 None false) = (Ok (), initial 0 None false) /\
  stop_sensor "barometer" (initial 0 None false) = (Ok (), initial 0 None false).
Proof. apply (unknown_sensor_ignored "barometer"). reflexivity. Defined.

(** C10. A sensor is constructed with the value 0, whatever its bounds; for
    the pressure sensor (980 to 1050) that is outside its definition, so the
    value of a sensor is within bounds only once it has generated one. *)
Theorem initial_value_is_zero :
  (forall (sid name unit_ : string) (lo hi : Q),
     current_value (SensorWorker_init sid name unit_ lo hi) = 0%Q) /\
  Forall (fun s => current_value s = 0%Q) sensors_list /\
  (forall t file failing, sensors (initial t file failing) = sensors_list) /\
  exists s : SensorWorker,
    sensors_list !! 3 = Some s /\ sensor_id s = "press" /\
    min_val s = 980%Q /\ max_val s = 1050%Q /\ ~ in_bounds s.
Proof.
  split; [reflexivity |]. split; [repeat constructor |].
  split; [reflexivity |].
  eexists. split; [reflexivity |]. repeat split.
  unfold in_bounds. cbn. intros [H _]. revert H. unfold Qle; simpl. lia.
Qed.

Lemma set_running_again (s : SensorWorker) :
  is_running s = true -> set_is_running true (set_is_running false s) = s.
Proof. destruct s; cbn. now intros ->. Qed.

(** C6. On a sensor that is already running [start] does nothing, and on a
    paused one [stop] does nothing: the state is the same and nothing is
    sent.  A true transition changes the flag and sends exactly one log
    event; so stopping and then starting a running sensor sends exactly two,
    "зупинено" and then "стартував", and leaves it running. *)
Theorem log_only_on_transition (w : World) (self : nat) (s : SensorWorker) :
  sensors w !! self = Some s ->
  (is_running s = true -> start self w = (Ok (), w)) /\
  (is_running s = false -> stop self w = (Ok (), w)) /\
  (is_running s = false ->
   exists w',
     start self w = (Ok (), w') /\
     sensors w' !! self = Some (set_is_running true s) /\
     wire w' = wire w ++
       [log_text w "INFO" ("Сенсор '" +:+ sensor_name s +:+ "' стартував.")]) /\
  (is_running s = true ->
   exists w',
     stop self w = (Ok (), w') /\
     sensors w' !! self = Some (set_is_running false s) /\
     wire w' = wire w ++
       [log_text w "INFO" ("Сенсор '" +:+ sensor_name s +:+ "' зупинено.")]) /\
  (is_running s = true ->
   forall sid : string, sensors_map !! sid = Some self ->
   exists w1 w2,
     stop_sensor sid w = (Ok (), w1) /\
     start_sensor sid w1 = (Ok (), w2) /\
     sensors w2 !! self = Some s /\
     wire w2 = wire w ++
       [log_text w "INFO" ("Сенсор '" +:+ sensor_name s +:+ "' зупинено.");
        log_text w "INFO" ("Сенсор '" +:+ sensor_name s +:+ "' стартував.")]).
Proof.
  intros Hs. pose proof (list_lookup_total_correct _ _ _ Hs) as Ht.
  assert (Hstart : is_running s = false ->
    exists w',
      start self w = (Ok (), w') /\
      sensors w' !! self = Some (set_is_running true s) /\
      wire w' = wire w ++
        [log_text w "INFO" ("Сенсор '" +:+ sensor_name s +:+ "' стартував.")]).
  { intros Hr. rewrite start_eq. cbn zeta. rewrite Ht, Hr.
    eexists. split; [reflexivity |]. split; [| reflexivity].
    cbn. now rewrite list_lookup_alter_eq, Hs. }
  assert (Hstop : is_running s = true ->
    exists w',
      stop self w = (Ok (), w') /\
      sensors w' !! self = Some (set_is_running false s) /\
      wire w' = wire w ++
        [log_text w "INFO" ("Сенсор '" +:+ sensor_name s +:+ "' зупинено.")]).
  { intros Hr. rewrite stop_eq. cbn zeta. rewrite Ht, Hr.
    eexists. split; [reflexivity |]. split; [| reflexivity].
    cbn. now rewrite list_lookup_alter_eq, Hs. }
  split; [| split; [| split; [exact Hstart | split; [exact Hstop |]]]].
  - intros Hr. rewrite start_eq. cbn zeta. now rewrite Ht, Hr.
  - intros Hr. rewrite stop_eq. cbn zeta. now rewrite Ht, Hr.
  - intros Hr sid Hsid. unfold stop_sensor, start_sensor. rewrite Hsid.
    destruct (Hstop Hr) as (w1 & E1 & Hs1 & Hw1).
    exists w1. rewrite E1.
    pose proof (list_lookup_total_correct _ _ _ Hs1) as Ht1.
    rewrite start_eq. cbn zeta. rewrite Ht1. cbn [is_running set_is_running].
    eexists. split; [reflexivity |]. split; [reflexivity |]. split.
    + cbn. rewrite list_lookup_alter_eq, Hs1. cbn.
      now rewrite set_running_again.
    + cbn. rewrite Hw1, <- app_assoc. cbn.
      rewrite stop_eq in E1. cbn zeta in E1. rewrite Ht, Hr in E1.
      injection E1 as <-. reflexivity.
Qed.

Lemma log_only_on_transition_witness :
  let w := initial 3723 None false in
  exists w1 w2,
    stop_sensor "wind" w = (Ok (), w1) /\
    start_sensor "wind" w1 = (Ok (), w2) /\
    sensors w2 !! 2 = Some (SensorWorker_init "wind" "Швидкість вітру" "м/с" 0 25) /\
    wire w2 = wire w ++
      [log_text w "INFO" "Сенсор 'Швидкість вітру' зупинено.";
       log_text w "INFO" "Сенсор 'Швидкість вітру' стартував."].
Proof.
  apply (log_only_on_transition (initial 3723 None false) 2
           (SensorWorker_init "wind" "Швидкість вітру" "м/с" 0 25));
    reflexivity.
Defined.

(** ** The sensors across the operations *)

Lemma generate_same_definition (s s' : SensorWorker) (draw : N) :
  same_definition s s' -> generate s' draw = generate s draw.
Proof. intros (_ & _ & _ & Hlo & Hhi). unfold generate. now rewrite Hlo, Hhi. Qed.

Lemma sensor_step_refl (s : SensorWorker) : sensor_step s s.
Proof. unfold sensor_step, same_definition. auto 10. Qed.

Lemma sensor_step_trans (a b c : SensorWorker) :
  sensor_step a b -> sensor_step b c -> sensor_step a c.
Proof.
  intros [Hab Vab] [Hbc Vbc]. split.
  - unfold same_definition in *. intuition congruence.
  - destruct Vbc as [E | [draw E]].
    + rewrite E. exact Vab.
    + right. exists draw. rewrite E. now apply generate_same_definition.
Qed.

Lemma sensors_step_refl (l : list SensorWorker) : Forall2 sensor_step l l.
Proof. induction l; constructor; auto using sensor_step_refl. Qed.

Lemma sensors_step_trans (l1 l2 l3 : list SensorWorker) :
  Forall2 sensor_step l1 l2 -> Forall2 sensor_step l2 l3 ->
  Forall2 sensor_step l1 l3.
Proof. apply Forall2_trans, sensor_step_trans. Qed.

Lemma sensors_step_flag (b : bool) (self : nat) (l : list SensorWorker) :
  Forall2 sensor_step l (alter (set_is_running b) self l).
Proof.
  apply Forall2_alter_r; [apply sensors_step_refl |].
  intros x y _ _ [Hd Hv]. split; [exact Hd | exact Hv].
Qed.

Lemma sensors_step_value (draw : N) (self : nat) (l : list SensorWorker) :
  Forall2 sensor_step l
    (alter (set_current_value (generate (l !!! self) draw)) self l).
Proof.
  apply Forall2_alter_r; [apply sensors_step_refl |].
  intros x y Hx Hy _. rewrite Hx in Hy. injection Hy as <-.
  rewrite (list_lookup_total_correct _ _ _ Hx).
  split; [unfold same_definition; auto 10 | right; now exists draw].
Qed.

Lemma sensors_start (self : nat) (w : World) :
  Forall2 sensor_step (sensors w) (sensors (start self w).2).
Proof.
  rewrite start_eq. cbn. destruct (is_running _); cbn;
    [apply sensors_step_refl | apply sensors_step_flag].
Qed.

Lemma sensors_stop (self : nat) (w : World) :
  Forall2 sensor_step (sensors w) (sensors (stop self w).2).
Proof.
  rewrite stop_eq. cbn. destruct (is_running _); cbn;
    [apply sensors_step_flag | apply sensors_step_refl].
Qed.

(** A loop over operations that end normally: the loop ends normally, and
    a relation between the worlds before and after each of them, reflexive
    and transitive, holds across the loop. *)
Lemma for_each_related {A} (R : World -> World -> Prop) (body : A -> M ())
    (l : list A) :
  (forall w, R w w) -> (forall a b c, R a b -> R b c -> R a c) ->
  (forall x w, (body x w).1 = Ok () /\ R w (body x w).2) ->
  forall w, (for_each l body w).1 = Ok () /\ R w (for_each l body w).2.
Proof.
  intros Hrefl Htrans Hbody. induction l as [| x l IH]; intros w.
  - split; [reflexivity | apply Hrefl].
  - cbn [for_each]. unfold mbind, M_bind.
    destruct (Hbody x w) as [Hok Hr].
    destruct (body x w) as [[[] | e] w1]; [| discriminate Hok]. cbn in Hr.
    destruct (IH w1) as [Hok' Hr']. split; [exact Hok' |].
    exact (Htrans _ _ _ Hr Hr').
Qed.

Lemma sensors_after (a : Action) (w : World) :
  Forall2 sensor_step (sensors w) (sensors (after a w)).
Proof.
  unfold after. destruct a; cbn [perform].
  - rewrite connect_eq. apply sensors_step_refl.
  - unfold disconnect. destruct (list_remove _ _); apply sensors_step_refl.
  - unfold mbind, M_bind. rewrite set_interval_eq. apply sensors_step_refl.
  - unfold start_sensor. destruct (sensors_map !! sid);
      [apply sensors_start | apply sensors_step_refl].
  - unfold stop_sensor. destruct (sensors_map !! sid);
      [apply sensors_stop | apply sensors_step_refl].
  - apply (for_each_related
             (fun w w' => Forall2 sensor_step (sensors w) (sensors w'))).
    + intros; apply sensors_step_refl.
    + intros ? ? ?; apply sensors_step_trans.
    + intros x w0. split; [now rewrite start_eq | apply sensors_start].
  - apply (for_each_related
             (fun w w' => Forall2 sensor_step (sensors w) (sensors w'))).
    + intros; apply sensors_step_refl.
    + intros ? ? ?; apply sensors_step_trans.
    + intros x w0. split; [now rewrite stop_eq | apply sensors_stop].
  - rewrite run_ready_eq. apply sensors_step_refl.
  - unfold mbind, M_bind. rewrite run_iteration_eq. cbn.
    rewrite sensors_iteration. cbn zeta.
    destruct (is_running _); [apply sensors_step_value | apply sensors_step_refl].
  - apply sensors_step_refl.
  - apply sensors_step_refl.
  - apply sensors_step_refl.
Qed.

Lemma sensors_run_actions (l : list Action) (w : World) :
  Forall2 sensor_step (sensors w) (sensors (run_actions l w)).
Proof.
  revert w. induction l as [| a l IH]; intros w; cbn.
  - apply sensors_step_refl.
  - eapply sensors_step_trans; [apply sensors_after | apply IH].
Qed.

Lemma in_bounds_step (s s' : SensorWorker) :
  one_decimal (min_val s) -> one_decimal (max_val s) ->
  (min_val s <= max_val s)%Q ->
  in_bounds s -> sensor_step s s' -> in_bounds s'.
Proof.
  intros Hlo Hhi Hle Hin [(_ & _ & _ & Elo & Ehi) Hv]. unfold in_bounds.
  rewrite Elo, Ehi. destruct Hv as [-> | [draw ->]]; [exact Hin |].
  now apply generate_between.
Qed.

(** C1 fails as stated: a definition with bounds of two decimal places,
    0.12 to 0.14, generates 0.1, which is below its minimum. *)
Lemma generate_leaves_bounds :
  exists (s : SensorWorker) (draw : N),
    (min_val s <= max_val s)%Q /\ (generate s draw < min_val s)%Q.
Proof.
  exists (SensorWorker_init "x" "X" "u" (12 # 100) (14 # 100)), 0%N.
  split; [discriminate | reflexivity].
Qed.

Lemma sensors_after_ready (self : nat) (w : World) :
  sensors (after (Ready self) w) = sensors w.
Proof. unfold after, perform. now rewrite run_ready_eq. Qed.

Lemma sensors_after_iteration (self : nat) (draw : N) (w : World) :
  sensors (after (Iteration self draw) w) =
  let s := sensors w !!! self in
  if is_running s then
    alter (set_current_value (generate s draw)) self (sensors w)
  else sensors w.
Proof.
  unfold after, perform, mbind, M_bind. rewrite run_iteration_eq. cbn.
  apply sensors_iteration.
Qed.

Lemma in_bounds_generated (s : SensorWorker) (draw : N) :
  one_decimal (min_val s) -> one_decimal (max_val s) ->
  (min_val s <= max_val s)%Q ->
  in_bounds (set_current_value (generate s draw) s).
Proof. intros. unfold in_bounds. cbn. now apply generate_between. Qed.

(** After the start of the program every sensor holds a generated value. *)
Lemma sensors_after_startup (t : nat) (file : option (list CsvRow))
    (failing : bool) (draws : list N) :
  length draws = length sensors_list ->
  Forall2 (fun s0 s => exists draw, s = set_current_value (generate s0 draw) s0)
    sensors_list
    (sensors (run_actions (startup_event draws) (initial t file failing))).
Proof.
  intros Hlen.
  do 7 (destruct draws as [| ? draws]; [discriminate Hlen |]).
  destruct draws; [clear Hlen | discriminate Hlen].
  unfold startup_event, run_actions. cbn [length sensors_list seq zip_with concat app foldl].
  repeat (rewrite sensors_after_iteration, sensors_after_ready; cbn).
  repeat (constructor; [eexists; reflexivity |]). constructor.
Qed.

(** C1, as the code has it.  For a sensor whose bounds have at most one
    decimal place and moderate size, minimum at most maximum, every
    generated value lies within the bounds.  Hence, once a running sensor
    with such bounds has taken a turn, its last-produced value lies within
    its bounds, and stays there whatever happens afterwards.  The seven
    sensors of the program have integer bounds between -10 and 1050 and take
    their first turn when the program starts, so from then on the value of
    each of them is within its bounds in every reachable state. *)
Theorem generated_value_in_bounds :
  (forall (s : SensorWorker) (draw : N),
     one_decimal (min_val s) -> one_decimal (max_val s) ->
     moderate (min_val s) -> moderate (max_val s) ->
     (min_val s <= max_val s)%Q ->
     (min_val s <= generate s draw <= max_val s)%Q) /\
  (forall (w : World) (self : nat) (s : SensorWorker) (draw : N)
          (later : list Action),
     sensors w !! self = Some s -> is_running s = true ->
     one_decimal (min_val s) -> one_decimal (max_val s) ->
     moderate (min_val s) -> moderate (max_val s) ->
     (min_val s <= max_val s)%Q ->
     exists s' : SensorWorker,
       sensors (run_actions (Iteration self draw :: later) w) !! self = Some s' /\
       same_definition s s' /\ in_bounds s') /\
  Forall (fun s0 => one_decimal (min_val s0) /\ one_decimal (max_val s0) /\
                    moderate (min_val s0) /\ moderate (max_val s0) /\
                    (min_val s0 <= max_val s0)%Q) sensors_list /\
  (forall (t : nat) (file : option (list CsvRow)) (failing : bool)
          (draws : list N) (later : list Action),
     length draws = length sensors_list ->
     Forall2 (fun s0 s => same_definition s0 s /\ in_bounds s)
       sensors_list
       (sensors (run_actions (startup_event draws ++ later)
                   (initial t file failing)))).
Proof.
  split; [intros s draw Hlo Hhi _ _; now apply generate_between |]. split.
  - intros w self s draw later Hs Hrun Hlo Hhi _ _ Hle.
    pose proof (list_lookup_total_correct _ _ _ Hs) as Ht.
    cbn [run_actions foldl]. fold (run_actions later).
    set (w1 := after (Iteration self draw) w).
    assert (H1 : sensors w1 !! self =
                 Some (set_current_value (generate s draw) s)).
    { unfold w1. rewrite sensors_after_iteration. cbn zeta. rewrite Ht, Hrun.
      now rewrite list_lookup_alter_eq, Hs. }
    destruct (Forall2_lookup_l _ _ _ _ _ (sensors_run_actions later w1) H1)
      as (s' & Hs' & Hstep).
    exists s'. split; [exact Hs' |]. split.
    + destruct Hstep as [Hd' _]. exact Hd'.
    + apply (in_bounds_step (set_current_value (generate s draw) s));
        [exact Hlo | exact Hhi | exact Hle | | exact Hstep].
      now apply in_bounds_generated.
  - split.
    { pose proof sensors_list_well_formed as Hwf.
      apply Forall_forall. intros s0 Hin.
      destruct (proj1 (Forall_forall _ _) Hwf s0 Hin) as (Hlo & Hhi & Hle).
      split; [exact Hlo |]. split; [exact Hhi |].
      pose proof sensors_list_moderate as Hm.
      destruct (proj1 (Forall_forall _ _) Hm s0 Hin) as [Hm1 Hm2].
      split; [exact Hm1 |]. split; [exact Hm2 | exact Hle]. }
    intros t file failing draws later Hlen.
    unfold run_actions. rewrite foldl_app.
    fold (run_actions (startup_event draws) (initial t file failing)).
    set (w := run_actions _ _).
    fold (run_actions later w).
    pose proof (sensors_after_startup t file failing draws Hlen) as H0.
    fold w in H0.
    pose proof (sensors_run_actions later w) as H1.
    revert H1. generalize (sensors (run_actions later w)).
    revert H0. generalize (sensors w).
    pose proof sensors_list_well_formed as Hwf. revert Hwf.
    generalize sensors_list. clear.
    intros l0 Hwf l H0. revert Hwf.
    induction H0 as [| s0 s l0 l [draw ->] _ IH]; intros Hwf l' H1.
    + inversion H1. constructor.
    + inversion H1 as [| ? s' ? l'' Hstep Hrest]; subst.
      apply Forall_cons in Hwf as [(Hlo & Hhi & Hle) Hwf].
      constructor; [| now apply IH].
      split.
      * destruct Hstep as [Hd _]. exact Hd.
      * apply (in_bounds_step (set_current_value (generate s0 draw) s0));
          [exact Hlo | exact Hhi | exact Hle | | exact Hstep].
        now apply in_bounds_generated.
Qed.

(** ** The shape of what is sent *)

Lemma is_digit_digit (k : nat) : k < 10 -> is_digit (Py.digit (Z.of_nat k)) = true.
Proof. intros H. do 10 (destruct k as [| k]; [reflexivity |]). lia. Qed.

Lemma two_digits_shape (n : nat) :
  n < 100 ->
  exists a b, Py.two_digits n = String a (String b EmptyString) /\
              is_digit a = true /\ is_digit b = true.
Proof.
  intros H. eexists _, _. split; [reflexivity |]. split; apply is_digit_digit.
  - apply Nat.Div0.div_lt_upper_bound. lia.
  - apply Nat.mod_upper_bound. lia.
Qed.

Lemma strftime_HMS_format (t : nat) : hms_format (Py.strftime_HMS t) = true.
Proof.
  unfold Py.strftime_HMS.
  destruct (two_digits_shape (t / 3600 mod 24)) as (h1 & h2 & -> & Hh1 & Hh2).
  { pose proof (Nat.mod_upper_bound (t / 3600) 24). lia. }
  destruct (two_digits_shape (t / 60 mod 60)) as (m1 & m2 & -> & Hm1 & Hm2).
  { pose proof (Nat.mod_upper_bound (t / 60) 60). lia. }
  destruct (two_digits_shape (t mod 60)) as (s1 & s2 & -> & Hs1 & Hs2).
  { pose proof (Nat.mod_upper_bound t 60). lia. }
  cbv [String.append hms_format].
  rewrite Hh1, Hh2, Hm1, Hm2, Hs1, Hs2. reflexivity.
Qed.

Lemma log_not_data (d : Dict) : ~ (is_log_event d /\ is_data_event d).
Proof.
  intros [(t & l & m & _ & ->) (sid & name & v & u & ts & _ & E)].
  discriminate E.
Qed.

Lemma log_text_is_log (w : World) (level msg : string) :
  exists time : string,
    hms_format time = true /\
    log_text w level msg =
    json_dumps [("type", JStr "log"); ("time", JStr time);
                ("level", JStr level); ("message", JStr msg)].
Proof.
  exists (Py.strftime_HMS (clock w)). split; [apply strftime_HMS_format | reflexivity].
Qed.

Lemma data_text_is_data (w : World) (s : SensorWorker) (value : Q) :
  exists timestamp : string,
    hms_format timestamp = true /\
    data_text w s value =
    json_dumps [("type", JStr "data"); ("sensor_id", JStr (sensor_id s));
                ("name", JStr (sensor_name s)); ("value", JNum value);
                ("unit", JStr (sensor_unit s)); ("timestamp", JStr timestamp)].
Proof.
  exists (Py.strftime_HMS (clock w)). split; [apply strftime_HMS_format | reflexivity].
Qed.

Lemma log_text_shaped (w : World) (level msg : string) :
  wire_shaped (log_text w level msg).
Proof.
  destruct (log_text_is_log w level msg) as (t & Ht & E). rewrite E.
  split; [| apply log_not_data]. left. now exists t, level, msg.
Qed.

Lemma data_text_shaped (w : World) (s : SensorWorker) (value : Q) :
  wire_shaped (data_text w s value).
Proof.
  destruct (data_text_is_data w s value) as (t & Ht & E). rewrite E.
  split; [| apply log_not_data]. right.
  now exists (sensor_id s), (sensor_name s), value, (sensor_unit s), t.
Qed.

Lemma alerts_shaped (w : World) (s : SensorWorker) (value : Q) :
  Forall wire_shaped (alerts w s value).
Proof.
  unfold alerts. destruct (check_limits _ _ _);
    [constructor; [apply log_text_shaped | constructor] ..| constructor].
Qed.

Lemma wire_invariant_frame (w w' : World) :
  wire w' = wire w -> received w' = received w ->
  wire_invariant w -> wire_invariant w'.
Proof.
  intros Hw Hr [H1 H2]. unfold wire_invariant, inbox. rewrite Hw, Hr.
  split; [exact H1 | exact H2].
Qed.

Lemma wire_invariant_broadcast (m : Text) (w : World) :
  wire_shaped m -> wire_invariant w -> wire_invariant (broadcast_world m w).
Proof.
  intros Hm [H1 H2]. split.
  - cbn. intros x [Hx | Hx]%elem_of_app; [auto |].
    apply list_elem_of_singleton in Hx as ->. exact Hm.
  - intros ws x. rewrite broadcast_world_inbox. cbn.
    intros [Hx | Hx]%elem_of_app; apply elem_of_app; [left; eauto |].
    right. destruct (decide _); [by apply elem_of_nil in Hx |].
    apply elem_of_replicate in Hx as [-> _]. apply list_elem_of_singleton. done.
Qed.

Lemma wire_invariant_broadcast_all (l : list Text) (w : World) :
  Forall wire_shaped l -> wire_invariant w -> wire_invariant (broadcast_all l w).
Proof.
  intros Hl. revert w. induction Hl as [| m l Hm _ IH]; intros w Hw; [exact Hw |].
  apply IH. now apply wire_invariant_broadcast.
Qed.

Lemma wire_invariant_csv sid name value unit_ (w : World) :
  wire_invariant w -> wire_invariant (csv_world sid name value unit_ w).
Proof.
  unfold csv_world. destruct (disk_error w); [done |].
  now apply wire_invariant_frame.
Qed.

Lemma wire_invariant_start (self : nat) (w : World) :
  wire_invariant w -> wire_invariant (start self w).2.
Proof.
  intros H. rewrite start_eq. cbn. destruct (is_running _); [exact H |].
  apply wire_invariant_broadcast; [apply log_text_shaped |].
  now apply (wire_invariant_frame w).
Qed.

Lemma wire_invariant_stop (self : nat) (w : World) :
  wire_invariant w -> wire_invariant (stop self w).2.
Proof.
  intros H. rewrite stop_eq. cbn. destruct (is_running _); [| exact H].
  apply wire_invariant_broadcast; [apply log_text_shaped |].
  now apply (wire_invariant_frame w).
Qed.

Lemma wire_invariant_after (a : Action) (w : World) :
  wire_invariant w -> wire_invariant (after a w).
Proof.
  intros H. unfold after. destruct a; cbn [perform].
  - rewrite connect_eq. cbn.
    apply wire_invariant_broadcast; [apply log_text_shaped |].
    now apply (wire_invariant_frame w).
  - unfold disconnect. destruct (list_remove _ _); [| exact H].
    now apply (wire_invariant_frame w).
  - unfold mbind, M_bind. rewrite set_interval_eq. cbn.
    apply wire_invariant_broadcast; [apply log_text_shaped |].
    now apply (wire_invariant_frame w).
  - unfold start_sensor. destruct (sensors_map !! sid);
      [now apply wire_invariant_start | exact H].
  - unfold stop_sensor. destruct (sensors_map !! sid);
      [now apply wire_invariant_stop | exact H].
  - revert H. apply (for_each_related
             (fun w w' => wire_invariant w -> wire_invariant w')); auto.
    intros x w0. split; [now rewrite start_eq | apply wire_invariant_start].
  - revert H. apply (for_each_related
             (fun w w' => wire_invariant w -> wire_invariant w')); auto.
    intros x w0. split; [now rewrite stop_eq | apply wire_invariant_stop].
  - rewrite run_ready_eq. cbn.
    apply wire_invariant_broadcast; [apply log_text_shaped | exact H].
  - unfold mbind, M_bind. rewrite run_iteration_eq. cbn.
    unfold iteration_world. cbn zeta. destruct (is_running _); [| exact H].
    apply wire_invariant_broadcast_all.
    + apply Forall_app. split; [apply alerts_shaped |].
      constructor; [apply data_text_shaped | constructor].
    + apply wire_invariant_csv. now apply (wire_invariant_frame w).
  - now apply (wire_invariant_frame w).
  - now apply (wire_invariant_frame w).
  - now apply (wire_invariant_frame w).
Qed.

Lemma wire_invariant_initial (t : nat) (file : option (list CsvRow)) (failing : bool) :
  wire_invariant (initial t file failing).
Proof.
  split.
  - intros m Hm. by apply elem_of_nil in Hm.
  - intros ws m Hm. unfold inbox in Hm. cbn in Hm.
    rewrite lookup_empty in Hm. by apply elem_of_nil in Hm.
Qed.

Lemma wire_invariant_run (l : list Action) (w : World) :
  wire_invariant w -> wire_invariant (run_actions l w).
Proof.
  revert w. induction l as [| a l IH]; intros w H; [exact H |].
  apply IH, wire_invariant_after, H.
Qed.

Lemma occurrences_NoDup (ws : WebSocket) (l : list WebSocket) :
  NoDup l -> ws ∈ l -> occurrences ws l = 1.
Proof.
  induction 1 as [| x l Hx Hl IH]; intros Hin; [by apply elem_of_nil in Hin |].
  rewrite occurrences_cons. destruct (decide (x = ws)) as [-> | Hne].
  - f_equal. destruct (occurrences ws l) eqn:E; [done |].
    exfalso. apply Hx. unfold occurrences in E.
    destruct (filter _ l) as [| y k] eqn:F; [done |].
    assert (Hy : y ∈ filter (fun x => x = ws) l) by (rewrite F; left).
    apply list_elem_of_filter in Hy as [-> Hy]. exact Hy.
  - apply elem_of_cons in Hin as [-> | Hin]; [done | auto].
Qed.

(** C9. In every state the program can reach, each text that was broadcast
    is the serialisation of a dictionary of exactly one of the two shapes,
    log [{type: "log", time, level, message}] or data [{type: "data",
    sensor_id, name, value, unit, timestamp}], with the time as HH:MM:SS,
    and each text in an observer's inbox is one of the broadcast texts.  A
    broadcast hands one and the same text, once, to every open observer of a
    duplicate-free list. *)
Theorem events_have_wire_shape :
  (forall (actions : list Action) (t : nat) (file : option (list CsvRow))
          (failing : bool),
     let w := run_actions actions (initial t file failing) in
     (forall m : Text, m ∈ wire w -> wire_shaped m) /\
     (forall (ws : WebSocket) (m : Text),
        m ∈ inbox w ws -> m ∈ wire w /\ wire_shaped m)) /\
  (forall (w : World) (level msg : string),
     exists time : string,
       hms_format time = true /\
       (broadcast_log level msg w).2 =
       broadcast_world
         (json_dumps [("type", JStr "log"); ("time", JStr time);
                      ("level", JStr level); ("message", JStr msg)]) w) /\
  (forall (w : World) (s : SensorWorker) (value : Q),
     exists timestamp : string,
       hms_format timestamp = true /\
       data_text w s value =
       json_dumps [("type", JStr "data"); ("sensor_id", JStr (sensor_id s));
                   ("name", JStr (sensor_name s)); ("value", JNum value);
                   ("unit", JStr (sensor_unit s));
                   ("timestamp", JStr timestamp)]) /\
  (forall (message : Text) (w : World) (ws : WebSocket),
     NoDup (active_connections w) ->
     ws ∈ active_connections w -> ws ∉ closed w ->
     inbox (broadcast message w).2 ws = inbox w ws ++ [message]).
Proof.
  split; [| split; [| split]].
  - intros actions t file failing w.
    destruct (wire_invariant_run actions _ (wire_invariant_initial t file failing))
      as [H1 H2].
    fold w in H1, H2. split; [exact H1 |].
    intros ws m Hm. split; [eauto | eauto].
  - intros w level msg. destruct (log_text_is_log w level msg) as (t & Ht & E).
    exists t. split; [exact Ht |]. now rewrite broadcast_log_eq, <- E.
  - apply data_text_is_data.
  - intros message w ws Hnd Hin Hopen. rewrite broadcast_eq. cbn [snd].
    rewrite broadcast_world_inbox, decide_False by done.
    now rewrite occurrences_NoDup.
Qed.

(** ** Concrete runs *)

(** Decide a closed proposition by evaluation. *)
Ltac by_evaluation :=
  match goal with
  | |- ?P => apply (bool_decide_unpack P); vm_compute; exact I
  end.

(** Three observers, the second one closed: the other two receive the text. *)
Lemma broadcast_survives_failures_witness :
  let w := run_actions [Connect 1; Connect 2; Connect 3; Break 2]
             (initial 0 None false) in
  let message := json_dumps [("type", JStr "data")] in
  exists w',
    broadcast message w = (Ok (), w') /\
    active_connections w' = [1; 2; 3] /\
    last (inbox w' 1) = Some message /\
    inbox w' 2 = inbox w 2 /\
    last (inbox w' 3) = Some message.
Proof.
  intros w message.
  destruct (broadcast_survives_failures message w) as (w' & E & Hc & _ & H).
  exists w'. split; [exact E |]. split; [exact Hc |].
  split; [| split].
  - apply (H 1); by_evaluation.
  - apply (H 2). by_evaluation.
  - apply (H 3); by_evaluation.
Defined.

(** The program starts, an observer connects, all sensors are stopped and
    time passes: the values are within bounds. *)
Lemma generated_value_in_bounds_witness :
  Forall2 (fun s0 s => same_definition s0 s /\ in_bounds s)
    sensors_list
    (sensors (run_actions
                (startup_event [11; 22; 33; 44; 55; 66; 77]%N
                 ++ [Connect 1; StopAll; Tick 5])
                (initial 0 None false))).
Proof.
  apply (proj2 (proj2 (proj2 generated_value_in_bounds)) 0 None false
           [11; 22; 33; 44; 55; 66; 77]%N [Connect 1; StopAll; Tick 5]).
  reflexivity.
Defined.

(** Scenario A on the program as loaded, through the theorem. *)
Lemma threshold_evaluation_witness :
  let w := initial 3723 None false in
  exists message : string,
    contains message "32.4" /\
    level_of (log_text w "WARNING" message) = Some "WARNING" /\
    wire (after (Iteration 0 8486000000000000) w) =
    wire w ++
      [log_text w "WARNING" message;
       data_text w (SensorWorker_init "temp" "Температура" "°C" (-10) 35)
         (324 # 10)].
Proof.
  apply (proj2 (proj2 (proj2 (proj2 (proj2 (proj2 (proj2 threshold_evaluation))))))
           (initial 3723 None false) 0
           (SensorWorker_init "temp" "Температура" "°C" (-10) 35)
           8486000000000000%N);
    reflexivity.
Defined.

(** A table whose entry has its bounds the wrong way round: a value beyond
    both is ABOVE_MAX. *)
Example max_is_checked_first :
  check_limits {[ "temp" := {[ "max" := 5%Q; "min" := 10%Q ]} ]} "temp" 7 = ABOVE_MAX.
Proof. reflexivity. Qed.

(** Unregistering from an empty list, and from a list that has the observer. *)
Lemma disconnect_absent_raises_witness :
  disconnect 7 (initial 0 None false) = (Raise ValueError, initial 0 None false) /\
  exists l1 l2,
    [5; 7; 9] = l1 ++ 7 :: l2 /\ (7 ∉ l1) /\
    disconnect 7 (set_active_connections [5; 7; 9] (initial 0 None false)) =
    (Ok (), set_active_connections (l1 ++ l2)
              (set_active_connections [5; 7; 9] (initial 0 None false))).
Proof.
  split.
  - apply (proj1 (disconnect_absent_raises 7 (initial 0 None false))).
    by_evaluation.
  - apply (proj2 (disconnect_absent_raises 7
                    (set_active_connections [5; 7; 9] (initial 0 None false)))).
    by_evaluation.
Defined.

(** The wind sensor has an entry without [min]: none of its readings is
    BELOW_MIN. *)
Lemma no_alert_without_bound_witness :
  check_limits THRESHOLDS "wind"
    (generate (SensorWorker_init "wind" "Швидкість вітру" "м/с" 0 25) 1) <> BELOW_MIN.
Proof.
  apply (proj1 (proj2 (proj2 (proj2 (proj2 (proj2 no_alert_without_bound))))
                  (SensorWorker_init "wind" "Швидкість вітру" "м/с" 0 25)
                  {[ "max" := 15%Q ]} 1%N
                  (list_elem_of_lookup_2 sensors_list 2 _ eq_refl) eq_refl)).
  reflexivity.
Defined.

(** Scenario C: two observers, one data event; each receives that text,
    once. *)
Lemma events_have_wire_shape_witness :
  let w := run_actions [Connect 1; Connect 2] (initial 0 None false) in
  let message := data_text w (SensorWorker_init "uv" "УФ-індекс" "idx" 0 11) 3 in
  inbox (broadcast message w).2 1 = inbox w 1 ++ [message] /\
  inbox (broadcast message w).2 2 = inbox w 2 ++ [message].
Proof.
  intros w message.
  split; apply (proj2 (proj2 (proj2 events_have_wire_shape))); by_evaluation.
Defined.

(** * Further properties of the program *)

(** ** What an action leaves alone *)

Lemma same_surroundings_refl (w : World) : same_surroundings w w.
Proof. unfold same_surroundings. auto 10. Qed.

Lemma same_surroundings_trans (a b c : World) :
  same_surroundings a b -> same_surroundings b c -> same_surroundings a c.
Proof. unfold same_surroundings. intuition congruence. Qed.

Lemma start_toggled (self : nat) (w : World) :
  start self w = (Ok (), toggled true started_message self w).
Proof.
  rewrite start_eq. unfold toggled. cbn zeta.
  destruct (is_running (sensors w !!! self)); reflexivity.
Qed.

Lemma stop_toggled (self : nat) (w : World) :
  stop self w = (Ok (), toggled false stopped_message self w).
Proof.
  rewrite stop_eq. unfold toggled. cbn zeta.
  destruct (is_running (sensors w !!! self)); reflexivity.
Qed.

Lemma toggled_surroundings b msg (self : nat) (w : World) :
  same_surroundings w (toggled b msg self w).
Proof.
  unfold toggled. cbn zeta. destruct (bool_decide _);
    [apply same_surroundings_refl | unfold same_surroundings; cbn; auto 10].
Qed.

(** A loop of [start] or of [stop] ends normally. *)
Lemma for_each_toggled (R : World -> World -> Prop) b msg (body : nat -> M ())
    (l : list nat) :
  (forall x w, body x w = (Ok (), toggled b msg x w)) ->
  (forall w, R w w) -> (forall a b c, R a b -> R b c -> R a c) ->
  (forall x w, R w (toggled b msg x w)) ->
  forall w, (for_each l body w).1 = Ok () /\ R w (for_each l body w).2.
Proof.
  intros Hbody Hrefl Htrans Hstep. apply for_each_related; auto.
  intros x w. rewrite Hbody. split; [reflexivity | apply Hstep].
Qed.

Lemma start_all_related (R : World -> World -> Prop) :
  (forall w, R w w) -> (forall a b c, R a b -> R b c -> R a c) ->
  (forall x w, R w (toggled true started_message x w)) ->
  forall w, (start_all w).1 = Ok () /\ R w (start_all w).2.
Proof.
  intros. unfold start_all.
  apply (for_each_toggled R true started_message); auto using start_toggled.
Qed.

Lemma stop_all_related (R : World -> World -> Prop) :
  (forall w, R w w) -> (forall a b c, R a b -> R b c -> R a c) ->
  (forall x w, R w (toggled false stopped_message x w)) ->
  forall w, (stop_all w).1 = Ok () /\ R w (stop_all w).2.
Proof.
  intros. unfold stop_all.
  apply (for_each_toggled R false stopped_message); auto using stop_toggled.
Qed.

Lemma csv_world_file sid name value unit_ (w : World) :
  csv_file (csv_world sid name value unit_ w) =
  if disk_error w then csv_file w
  else Some (default [] (csv_file w)
             ++ (if bool_decide (is_Some (csv_file w)) then [] else [Header])
             ++ [Reading (clock w) sid name value unit_]).
Proof. unfold csv_world. now destruct (disk_error w). Qed.

Lemma broadcast_all_surroundings (l : list Text) (w : World) :
  same_surroundings w (broadcast_all l w).
Proof.
  revert w. induction l as [| m l IH]; intros w; [apply same_surroundings_refl |].
  eapply same_surroundings_trans; [| apply IH].
  unfold same_surroundings; cbn; auto 10.
Qed.

Lemma after_iteration (self : nat) (draw : N) (w : World) :
  after (Iteration self draw) w = iteration_world self draw w.
Proof. unfold after, perform, mbind, M_bind. now rewrite run_iteration_eq. Qed.

Lemma after_set_interval (v : Q) (w : World) :
  after (SetInterval v) w =
  broadcast_world
    (log_text w "SYSTEM"
       ("Швидкість оновлення змінено на "
        +:+ Py.str_float (Py.max (1 # 2) (Py.min 10 v)) +:+ " сек"))
    (set_update_interval (Py.max (1 # 2) (Py.min 10 v)) w).
Proof. unfold after, perform, mbind, M_bind. now rewrite set_interval_eq. Qed.

Lemma after_connect (ws : WebSocket) (w : World) :
  after (Connect ws) w =
  broadcast_world
    (log_text w "SYSTEM"
       ("Клієнт підключено. Інтервал оновлення: "
        +:+ Py.str_float (update_interval w) +:+ "с"))
    (set_active_connections (active_connections w ++ [ws]) w).
Proof. unfold after, perform. now rewrite connect_eq. Qed.

Lemma after_ready (self : nat) (w : World) :
  after (Ready self) w =
  broadcast_world
    (log_text w "INFO"
       ("Сенсор '" +:+ sensor_name (sensors w !!! self) +:+ "' готовий.")) w.
Proof. unfold after, perform. now rewrite run_ready_eq. Qed.

Lemma iteration_world_surroundings (self : nat) (draw : N) (w : World) :
  update_interval (iteration_world self draw w) = update_interval w /\
  active_connections (iteration_world self draw w) = active_connections w /\
  clock (iteration_world self draw w) = clock w /\
  closed (iteration_world self draw w) = closed w /\
  disk_error (iteration_world self draw w) = disk_error w.
Proof.
  unfold iteration_world. cbn zeta. destruct (is_running _); [| auto 10].
  match goal with
  | |- context [broadcast_all ?l ?w0] =>
      destruct (broadcast_all_surroundings l w0) as (E1 & E2 & E3 & E4 & _ & E6)
  end.
  rewrite E1, E2, E3, E4, E6. unfold csv_world. cbn.
  destruct (disk_error w) eqn:E; cbn; auto 10.
Qed.

(** Every action, field by field: what it does to the interval, the list of
    connections, the clock, the closed websockets and the disk. *)
Lemma after_surroundings (a : Action) (w : World) :
  update_interval (after a w) =
    match a with
    | SetInterval v => Py.max (1 # 2) (Py.min 10 v)
    | _ => update_interval w
    end /\
  active_connections (after a w) =
    match a with
    | Connect ws => active_connections w ++ [ws]
    | Disconnect ws =>
        default (active_connections w) (list_remove ws (active_connections w))
    | _ => active_connections w
    end /\
  clock (after a w) =
    match a with
    | Tick n => clock w + n
    | _ => clock w
    end /\
  closed (after a w) =
    match a with
    | Break ws => {[ws]} ∪ closed w
    | _ => closed w
    end /\
  disk_error (after a w) =
    match a with
    | Disk b => b
    | _ => disk_error w
    end.
Proof.
  destruct a.
  - rewrite after_connect. cbn. auto 10.
  - unfold after, perform, disconnect. destruct (list_remove _ _); cbn; auto 10.
  - rewrite after_set_interval. cbn. auto 10.
  - unfold after, perform, start_sensor. destruct (sensors_map !! sid); [| cbn; auto 10].
    rewrite start_toggled. cbn [snd].
    destruct (toggled_surroundings true started_message n w) as (?&?&?&?&?&?). auto 10.
  - unfold after, perform, stop_sensor. destruct (sensors_map !! sid); [| cbn; auto 10].
    rewrite stop_toggled. cbn [snd].
    destruct (toggled_surroundings false stopped_message n w) as (?&?&?&?&?&?). auto 10.
  - unfold after, perform.
    destruct (start_all_related same_surroundings same_surroundings_refl
                same_surroundings_trans (toggled_surroundings _ _) w)
      as [_ (?&?&?&?&?&?)]. auto 10.
  - unfold after, perform.
    destruct (stop_all_related same_surroundings same_surroundings_refl
                same_surroundings_trans (toggled_surroundings _ _) w)
      as [_ (?&?&?&?&?&?)]. auto 10.
  - rewrite after_ready. cbn. auto 10.
  - rewrite after_iteration. apply iteration_world_surroundings.
  - cbn. auto 10.
  - cbn. auto 10.
  - cbn. auto 10.
Qed.

(** ** What an action broadcasts *)

Lemma deliveries_nil (w : World) (ws : WebSocket) : deliveries w ws [] = [].
Proof. unfold deliveries. now destruct (decide _). Qed.

Lemma deliveries_app (w : World) (ws : WebSocket) (l1 l2 : list Text) :
  deliveries w ws (l1 ++ l2) = deliveries w ws l1 ++ deliveries w ws l2.
Proof.
  unfold deliveries. destruct (decide _); [done |]. apply bind_app.
Qed.

Lemma deliveries_same (w w' : World) (ws : WebSocket) (msgs : list Text) :
  closed w' = closed w -> active_connections w' = active_connections w ->
  deliveries w' ws msgs = deliveries w ws msgs.
Proof. intros Hc Ha. unfold deliveries. now rewrite Hc, Ha. Qed.

Lemma broadcast_between_refl (w : World) : broadcast_between [] w w.
Proof.
  split; [now rewrite app_nil_r |]. intros ws.
  now rewrite deliveries_nil, app_nil_r.
Qed.

Lemma broadcast_between_trans (l1 l2 : list Text) (a b c : World) :
  closed c = closed b -> active_connections c = active_connections b ->
  broadcast_between l1 a b -> broadcast_between l2 b c ->
  broadcast_between (l1 ++ l2) a c.
Proof.
  intros Hc Ha [W1 I1] [W2 I2]. split.
  - now rewrite W2, W1, app_assoc.
  - intros ws. rewrite I2, I1, deliveries_app, app_assoc.
    now rewrite (deliveries_same b c ws l1 Hc Ha).
Qed.

Lemma broadcast_between_one (m : Text) (w : World) :
  broadcast_between [m] w (broadcast_world m w).
Proof.
  split; [reflexivity |]. intros ws. rewrite broadcast_world_inbox.
  unfold deliveries. cbn. destruct (decide _); [done |]. now rewrite app_nil_r.
Qed.

(** A change that touches neither the wire nor the inboxes. *)
Lemma broadcast_between_frame (w w' : World) :
  wire w' = wire w -> received w' = received w -> broadcast_between [] w w'.
Proof.
  intros Hw Hr. split; [now rewrite Hw, app_nil_r |]. intros ws.
  unfold inbox. now rewrite Hr, deliveries_nil, app_nil_r.
Qed.

Lemma broadcast_between_all (l : list Text) (w : World) :
  broadcast_between l w (broadcast_all l w).
Proof.
  revert w. induction l as [| m l IH]; intros w; [apply broadcast_between_refl |].
  change (m :: l) with ([m] ++ l).
  apply (broadcast_between_trans [m] l w (broadcast_world m w));
    [| | apply broadcast_between_one | apply IH].
  - now destruct (broadcast_all_surroundings l (broadcast_world m w)) as (_&_&_&E&_).
  - now destruct (broadcast_all_surroundings l (broadcast_world m w)) as (_&E&_).
Qed.

Lemma toggled_between b msg (self : nat) (w : World) :
  broadcast_between (toggle_log b msg w self) w (toggled b msg self w).
Proof.
  unfold toggled, toggle_log. cbn zeta. destruct (bool_decide _).
  - apply broadcast_between_refl.
  - apply (broadcast_between_trans [] [_] w
             (set_sensors (alter (set_is_running b) self (sensors w)) w));
      [reflexivity | reflexivity | now apply broadcast_between_frame |].
    apply broadcast_between_one.
Qed.

Lemma toggle_log_shaped b msg (w : World) (self : nat) :
  Forall wire_shaped (toggle_log b msg w self).
Proof.
  unfold toggle_log. cbn zeta. destruct (bool_decide _); [constructor |].
  constructor; [apply log_text_shaped | constructor].
Qed.

Lemma loop_between_refl (w : World) : loop_between w w.
Proof.
  split; [apply same_surroundings_refl |].
  exists []. split; [constructor | apply broadcast_between_refl].
Qed.

Lemma loop_between_trans (a b c : World) :
  loop_between a b -> loop_between b c -> loop_between a c.
Proof.
  intros [S1 (l1 & F1 & B1)] [S2 (l2 & F2 & B2)].
  split; [eapply same_surroundings_trans; eauto |].
  exists (l1 ++ l2). split; [now apply Forall_app |].
  destruct S2 as (_ & Ha & _ & Hc & _).
  now apply (broadcast_between_trans l1 l2 a b c).
Qed.

Lemma loop_between_toggled b msg (self : nat) (w : World) :
  loop_between w (toggled b msg self w).
Proof.
  split; [apply toggled_surroundings |].
  exists (toggle_log b msg w self).
  split; [apply toggle_log_shaped | apply toggled_between].
Qed.

(** Every action broadcasts a list of well-shaped texts, each of them to the
    connections it leaves, and does nothing else to wire and inboxes. *)
Lemma after_broadcasts (a : Action) (w : World) :
  exists msgs, Forall wire_shaped msgs /\ broadcast_between msgs w (after a w).
Proof.
  destruct a.
  - rewrite after_connect. eexists [_]. split;
      [constructor; [apply log_text_shaped | constructor] |].
    apply (broadcast_between_trans [] [_] w
             (set_active_connections (active_connections w ++ [ws]) w));
      [reflexivity | reflexivity | now apply broadcast_between_frame |].
    apply broadcast_between_one.
  - exists []. split; [constructor |]. unfold after, perform, disconnect.
    destruct (list_remove _ _); cbn; [now apply broadcast_between_frame |].
    apply broadcast_between_refl.
  - rewrite after_set_interval. eexists [_]. split;
      [constructor; [apply log_text_shaped | constructor] |].
    apply (broadcast_between_trans [] [_] w
             (set_update_interval (Py.max (1 # 2) (Py.min 10 interval)) w));
      [reflexivity | reflexivity | now apply broadcast_between_frame |].
    apply broadcast_between_one.
  - unfold after, perform, start_sensor. destruct (sensors_map !! sid).
    + rewrite start_toggled. cbn [snd]. eexists. split;
        [apply toggle_log_shaped | apply toggled_between].
    + exists []. split; [constructor | apply broadcast_between_refl].
  - unfold after, perform, stop_sensor. destruct (sensors_map !! sid).
    + rewrite stop_toggled. cbn [snd]. eexists. split;
        [apply toggle_log_shaped | apply toggled_between].
    + exists []. split; [constructor | apply broadcast_between_refl].
  - unfold after, perform.
    now destruct (start_all_related loop_between loop_between_refl
                    loop_between_trans (loop_between_toggled _ _) w) as [_ [_ H]].
  - unfold after, perform.
    now destruct (stop_all_related loop_between loop_between_refl
                    loop_between_trans (loop_between_toggled _ _) w) as [_ [_ H]].
  - rewrite after_ready. eexists [_]. split;
      [constructor; [apply log_text_shaped | constructor] |].
    apply broadcast_between_one.
  - rewrite after_iteration. unfold iteration_world. cbn zeta.
    destruct (is_running _).
    + match goal with
      | |- context [broadcast_all ?l ?w0] =>
          exists l; split;
          [ apply Forall_app; split; [apply alerts_shaped |];
            constructor; [apply data_text_shaped | constructor]
          | destruct (broadcast_all_surroundings l w0) as (_ & Ea & _ & Ec & _);
            apply (broadcast_between_trans [] l w w0);
            [ exact Ec | exact Ea
            | apply broadcast_between_frame;
              unfold csv_world; cbn; now destruct (disk_error w)
            | apply broadcast_between_all ] ]
      end.
    + exists []. split; [constructor | apply broadcast_between_refl].
  - exists []. split; [constructor |]. now apply broadcast_between_frame.
  - exists []. split; [constructor |]. now apply broadcast_between_frame.
  - exists []. split; [constructor |]. now apply broadcast_between_frame.
Qed.

(** ** Who receives what *)

Lemma occurrences_app (ws : WebSocket) (l1 l2 : list WebSocket) :
  occurrences ws (l1 ++ l2) = occurrences ws l1 + occurrences ws l2.
Proof. unfold occurrences. now rewrite filter_app, length_app. Qed.

Lemma occurrences_absent (ws : WebSocket) (l : list WebSocket) :
  ws ∉ l -> occurrences ws l = 0.
Proof.
  induction l as [| x l IH]; intros H; [done |].
  apply not_elem_of_cons in H as [Hne Hl].
  rewrite occurrences_cons, decide_False by congruence. auto.
Qed.

Lemma occurrences_present (ws : WebSocket) (l : list WebSocket) :
  0 < occurrences ws l -> ws ∈ l.
Proof.
  intros H. destruct (decide (ws ∈ l)) as [Hin | Hout]; [done |].
  rewrite occurrences_absent in H by done. lia.
Qed.

Lemma list_remove_occurrences (x ws : WebSocket) (l l' : list WebSocket) :
  list_remove x l = Some l' ->
  occurrences ws l = (if decide (x = ws) then 1 else 0) + occurrences ws l'.
Proof.
  revert l'. induction l as [| y l IH]; intros l' H; [discriminate |].
  cbn in H. destruct (decide (y = x)) as [-> | Hne].
  - injection H as <-. rewrite occurrences_cons. now destruct (decide (x = ws)).
  - destruct (list_remove x l) as [k |]; [| discriminate]. injection H as <-.
    rewrite !occurrences_cons, (IH k eq_refl).
    destruct (decide (y = ws)), (decide (x = ws)); congruence || lia.
Qed.

Lemma bind_replicate_1 {A} (l : list A) : l ≫= replicate 1 = l.
Proof. induction l as [| x l IH]; [done |]. now rewrite bind_cons, IH. Qed.

Lemma bind_replicate_0 {A} (l : list A) : l ≫= replicate 0 = [].
Proof. induction l as [| x l IH]; [done |]. now rewrite bind_cons, IH. Qed.

(** The inbox of one websocket along a run of actions, as long as the
    actions keep a property [P] of the world under which the websocket
    receives [f msgs] of the texts [msgs] broadcast. *)
Lemma run_actions_inbox (P : World -> Prop) (ok : Action -> bool)
    (f : list Text -> list Text) (ws : WebSocket) :
  (forall a w, ok a = true -> P w -> P (after a w)) ->
  (forall a w msgs, ok a = true -> P w -> deliveries (after a w) ws msgs = f msgs) ->
  f [] = [] -> (forall l1 l2, f (l1 ++ l2) = f l1 ++ f l2) ->
  forall (actions : list Action) (w : World),
    Forall (fun a => ok a = true) actions -> P w ->
    P (run_actions actions w) /\
    exists msgs,
      Forall wire_shaped msgs /\
      wire (run_actions actions w) = wire w ++ msgs /\
      inbox (run_actions actions w) ws = inbox w ws ++ f msgs.
Proof.
  intros Hkeep Hdel Hnil Happ actions.
  induction actions as [| a actions IH]; intros w Hok HP.
  - split; [exact HP |]. exists []. split; [constructor |].
    cbn. now rewrite Hnil, !app_nil_r.
  - apply Forall_cons in Hok as [Ha Hok]. cbn [run_actions foldl].
    fold (run_actions actions (after a w)).
    destruct (after_broadcasts a w) as (m1 & F1 & W1 & I1).
    destruct (IH (after a w) Hok (Hkeep a w Ha HP)) as (HP' & m2 & F2 & W2 & I2).
    split; [exact HP' |]. exists (m1 ++ m2).
    split; [now apply Forall_app |]. split.
    + now rewrite W2, W1, app_assoc.
    + now rewrite I2, I1, (Hdel a w m1 Ha HP), Happ, app_assoc.
Qed.

Lemma untouched_step (ws : WebSocket) (a : Action) (w : World) :
  touches ws a = false ->
  occurrences ws (active_connections (after a w)) =
    occurrences ws (active_connections w) /\
  (ws ∈ closed (after a w) <-> ws ∈ closed w).
Proof.
  intros Ht. destruct (after_surroundings a w) as (_ & Ea & _ & Ec & _).
  rewrite Ea, Ec. destruct a; cbn in Ht; try done.
  - apply bool_decide_eq_false in Ht. split; [| done].
    rewrite occurrences_app, (occurrences_absent ws [ws0]); [lia |].
    apply not_elem_of_cons. split; [congruence | apply not_elem_of_nil].
  - apply bool_decide_eq_false in Ht. split; [| done].
    destruct (list_remove ws0 (active_connections w)) as [l' |] eqn:E; [| done].
    cbn. rewrite (list_remove_occurrences _ ws _ _ E).
    now rewrite decide_False.
  - apply bool_decide_eq_false in Ht. split; [done |].
    rewrite elem_of_union, elem_of_singleton.
    split; [intros [E | E]; [congruence | exact E] | intros E; right; exact E].
Qed.

(** X4. As long as no websocket is unregistered, an open websocket that is
    registered once, and that no action registers again or closes, receives
    every text that is broadcast exactly once: what it receives is what was
    broadcast, up to the order of arrival.  (A websocket unregistered while
    a broadcast walks the list may make the walk skip the next one.) *)
Theorem observer_receives_every_event (ws : WebSocket) (w : World)
    (actions : list Action) :
  occurrences ws (active_connections w) = 1 -> ws ∉ closed w ->
  Forall (fun a => touches ws a = false /\ unregisters_any a = false) actions ->
  exists msgs got : list Text,
    wire (run_actions actions w) = wire w ++ msgs /\
    inbox (run_actions actions w) ws = inbox w ws ++ got /\
    got ≡ₚ msgs.
Proof.
  intros Hocc Hopen Hok.
  destruct (run_actions_inbox
              (fun w => occurrences ws (active_connections w) = 1 /\ ws ∉ closed w)
              (fun a => negb (touches ws a)) (fun l => l) ws) with (actions := actions) (w := w)
    as (_ & msgs & _ & W & I).
  - intros a w0 Ha [H1 H2]. apply negb_true_iff in Ha.
    destruct (untouched_step ws a w0 Ha) as [E1 E2]. rewrite E1, E2. done.
  - intros a w0 msgs Ha [H1 H2]. apply negb_true_iff in Ha.
    destruct (untouched_step ws a w0 Ha) as [E1 E2].
    unfold deliveries. rewrite decide_False by (rewrite E2; done).
    rewrite E1, H1. apply bind_replicate_1.
  - reflexivity.
  - reflexivity.
  - eapply Forall_impl; [exact Hok |]. intros a [Ha _]. now rewrite Ha.
  - done.
  - now exists msgs, msgs.
Qed.

(** X5. A websocket that is not in the list of connections receives nothing
    as long as no action registers it, and a closed websocket never receives
    anything again, whatever happens. *)
Theorem silent_for_absent_and_closed (ws : WebSocket) (w : World)
    (actions : list Action) :
  (ws ∉ active_connections w ->
   Forall (fun a => registers ws a = false) actions ->
   inbox (run_actions actions w) ws = inbox w ws) /\
  (ws ∈ closed w -> inbox (run_actions actions w) ws = inbox w ws).
Proof.
  split.
  - intros Hout Hok.
    destruct (run_actions_inbox (fun w => ws ∉ active_connections w)
                (fun a => negb (registers ws a)) (fun _ => []) ws)
      with (actions := actions) (w := w) as (_ & msgs & _ & _ & I).
    + intros a w0 Ha H. apply negb_true_iff in Ha.
      destruct (after_surroundings a w0) as (_ & Ea & _). rewrite Ea.
      destruct a; try done.
      * cbn in Ha. apply bool_decide_eq_false in Ha.
        apply not_elem_of_app. split; [done |].
        apply not_elem_of_cons. split; [congruence | apply not_elem_of_nil].
      * destruct (list_remove ws0 (active_connections w0)) as [l' |] eqn:E; [| done].
        cbn. intros Hin. apply occurrences_elem in Hin.
        pose proof (list_remove_occurrences _ ws _ _ E) as Ho.
        rewrite (occurrences_absent _ _ H) in Ho. lia.
    + intros a w0 msgs Ha H. apply negb_true_iff in Ha.
      unfold deliveries. destruct (decide _); [done |].
      rewrite occurrences_absent; [apply bind_replicate_0 |].
      destruct (after_surroundings a w0) as (_ & Ea & _). rewrite Ea.
      destruct a; try done.
      * cbn in Ha. apply bool_decide_eq_false in Ha.
        apply not_elem_of_app. split; [done |].
        apply not_elem_of_cons. split; [congruence | apply not_elem_of_nil].
      * destruct (list_remove ws0 (active_connections w0)) as [l' |] eqn:E; [| done].
        cbn. intros Hin. apply occurrences_elem in Hin.
        pose proof (list_remove_occurrences _ ws _ _ E) as Ho.
        rewrite (occurrences_absent _ _ H) in Ho. lia.
    + reflexivity.
    + reflexivity.
    + eapply Forall_impl; [exact Hok |]. intros a Ha. now rewrite Ha.
    + done.
    + now rewrite I, app_nil_r.
  - intros Hin.
    assert (Hgrow : forall a w0, ws ∈ closed w0 -> ws ∈ closed (after a w0)).
    { intros a w0 H. destruct (after_surroundings a w0) as (_ & _ & _ & Ec & _).
      rewrite Ec. destruct a; try done. apply elem_of_union. now right. }
    destruct (run_actions_inbox (fun w => ws ∈ closed w)
                (fun _ => true) (fun _ => []) ws)
      with (actions := actions) (w := w) as (_ & msgs & _ & _ & I).
    + intros a w0 _. apply Hgrow.
    + intros a w0 msgs _ H. unfold deliveries.
      rewrite decide_True; [done | now apply Hgrow].
    + reflexivity.
    + reflexivity.
    + apply Forall_forall. done.
    + done.
    + now rewrite I, app_nil_r.
Qed.

Lemma observer_receives_every_event_witness :
  let w := run_actions [Connect 1; Connect 2] (initial 0 None false) in
  let actions := [Iteration 0 8486000000000000; Break 2; StopAll; Connect 3;
                  SetInterval 99; Tick 3; Iteration 0 5] in
  exists msgs got : list Text,
    wire (run_actions actions w) = wire w ++ msgs /\
    inbox (run_actions actions w) 1 = inbox w 1 ++ got /\
    got ≡ₚ msgs.
Proof.
  intros w actions. apply (observer_receives_every_event 1 w actions).
  - reflexivity.
  - by_evaluation.
  - repeat (constructor; [split; reflexivity |]). constructor.
Defined.

Lemma silent_for_absent_and_closed_witness :
  let w := run_actions [Connect 1; Connect 2; Break 2] (initial 0 None false) in
  let actions := [Iteration 0 8486000000000000; StopAll; Disconnect 1; Connect 4] in
  inbox (run_actions actions w) 3 = inbox w 3 /\
  inbox (run_actions actions w) 2 = inbox w 2.
Proof.
  intros w actions. split.
  - apply (proj1 (silent_for_absent_and_closed 3 w actions)).
    + by_evaluation.
    + repeat (constructor; [reflexivity |]). constructor.
  - apply (proj2 (silent_for_absent_and_closed 2 w actions)). by_evaluation.
Defined.

(** ** The sampling interval over time *)

Lemma clamped_in_range (v : Q) : interval_in_range (Py.max (1 # 2) (Py.min 10 v)).
Proof.
  unfold interval_in_range, Py.max, Py.min.
  destruct (Py.lt v 10) eqn:E1.
  - apply lt_true in E1. destruct (Py.gt v (1 # 2)) eqn:E2.
    + apply gt_true in E2. lra.
    + lra.
  - destruct (Py.gt 10 (1 # 2)) eqn:E2; [lra |].
    apply gt_false in E2. lra.
Qed.

Lemma interval_after (a : Action) (w : World) :
  interval_in_range (update_interval w) ->
  interval_in_range (update_interval (after a w)).
Proof.
  intros H. destruct (after_surroundings a w) as (E & _). rewrite E.
  destruct a; try exact H. apply clamped_in_range.
Qed.

(** X1. In every state the program can reach the sampling interval lies
    between 0.5 and 10.  A turn of a sensor does not write the interval, and
    the duration it hands to [asyncio.sleep] when it ends is exactly the
    interval then in force, the one of the state the turn leaves. *)
Theorem interval_always_in_range (actions : list Action) (t : nat)
    (file : option (list CsvRow)) (failing : bool) :
  let w := run_actions actions (initial t file failing) in
  interval_in_range (update_interval w) /\
  forall (self : nat) (draw : N),
    (run_iteration self draw w).1 =
      Ok (update_interval (run_iteration self draw w).2) /\
    update_interval (run_iteration self draw w).2 = update_interval w.
Proof.
  cbn zeta.
  assert (H : interval_in_range
                (update_interval (run_actions actions (initial t file failing)))).
  { assert (H0 : interval_in_range (update_interval (initial t file failing)))
      by (split; discriminate).
    revert H0. generalize (initial t file failing).
    induction actions as [| a actions IH]; intros w Hw; [exact Hw |].
    apply IH, interval_after, Hw. }
  split; [exact H |]. intros self draw. rewrite run_iteration_eq.
  cbn [fst snd].
  destruct (iteration_world_surroundings self draw
              (run_actions actions (initial t file failing))) as [E _].
  now rewrite E.
Qed.

Lemma interval_kept (actions : list Action) (w : World) :
  Forall (fun a => writes_interval a = false) actions ->
  update_interval (run_actions actions w) = update_interval w.
Proof.
  revert w. induction actions as [| a actions IH]; intros w H; [done |].
  apply Forall_cons in H as [Ha H]. cbn [run_actions foldl].
  fold (run_actions actions (after a w)). rewrite (IH _ H).
  destruct (after_surroundings a w) as (E & _). rewrite E.
  now destruct a.
Qed.

(** X2. A new interval is what every sensor sleeps for from its next turn
    on: after [set_interval v], and whatever happens next short of another
    [set_interval], a turn of any sensor ends with a sleep of the clamped
    [v]. *)
Theorem interval_used_by_next_turn (v : Q) (w : World) (actions : list Action)
    (self : nat) (draw : N) :
  Forall (fun a => writes_interval a = false) actions ->
  (run_iteration self draw (run_actions actions (after (SetInterval v) w))).1 =
  Ok (Py.max (1 # 2) (Py.min 10 v)).
Proof.
  intros H. rewrite run_iteration_eq. cbn [fst]. f_equal.
  rewrite (interval_kept actions _ H).
  now destruct (after_surroundings (SetInterval v) w) as (E & _).
Qed.

Lemma interval_used_by_next_turn_witness :
  (run_iteration 2 7
     (run_actions [Connect 1; StopSensor "wind"; Tick 2]
        (after (SetInterval (2 # 10)) (initial 0 None false)))).1 =
  Ok (1 # 2)%Q.
Proof.
  apply (interval_used_by_next_turn (2 # 10) (initial 0 None false)
           [Connect 1; StopSensor "wind"; Tick 2] 2 7).
  repeat (constructor; [reflexivity |]). constructor.
Defined.

(** ** A websocket session *)

Lemma receive_until_disconnect_eq (incoming : list string) (w : World) :
  receive_until_disconnect incoming w = (Ok (), w).
Proof. induction incoming as [| x l IH]; [reflexivity | exact IH]. Qed.

Lemma list_remove_last (ws : WebSocket) (l : list WebSocket) :
  ws ∉ l -> list_remove ws (l ++ [ws]) = Some l.
Proof.
  induction l as [| y l IH]; intros H; cbn.
  - now rewrite decide_True.
  - apply not_elem_of_cons in H as [Hne Hl].
    rewrite decide_False by congruence. now rewrite IH.
Qed.

Lemma stays_registered (ws : WebSocket) (actions : list Action) (w : World) :
  Forall (fun a => unregisters ws a = false) actions ->
  ws ∈ active_connections w -> ws ∈ active_connections (run_actions actions w).
Proof.
  revert w. induction actions as [| a actions IH]; intros w H Hin; [done |].
  apply Forall_cons in H as [Ha H]. cbn [run_actions foldl].
  fold (run_actions actions (after a w)). apply (IH _ H).
  destruct (after_surroundings a w) as (_ & E & _). rewrite E.
  destruct a; try done.
  - apply elem_of_app. now left.
  - cbn in Ha. apply bool_decide_eq_false in Ha.
    destruct (list_remove ws0 (active_connections w)) as [l' |] eqn:El; [| done].
    cbn. apply occurrences_present.
    pose proof (list_remove_occurrences _ ws _ _ El) as Ho.
    rewrite decide_False in Ho by done. apply occurrences_elem in Hin. lia.
Qed.

(** X3. A websocket session never fails in unregistering: the route
    registers the websocket and, when the client goes away, unregisters it,
    and whatever happened in between short of unregistering that very
    websocket, [disconnect] finds it in the list, returns normally and takes
    one occurrence out.  Run without anything in between, the route leaves
    the list of a websocket that was not in it as it found it. *)
Theorem session_ends_normally (ws : WebSocket) (w : World) :
  (forall incoming : list string,
     (websocket_endpoint ws incoming w).1 = Ok () /\
     (ws ∉ active_connections w ->
      active_connections (websocket_endpoint ws incoming w).2 =
      active_connections w)) /\
  (forall during : list Action,
     Forall (fun a => unregisters ws a = false) during ->
     let w1 := run_actions during (after (Connect ws) w) in
     exists w2,
       disconnect ws w1 = (Ok (), w2) /\
       S (occurrences ws (active_connections w2)) =
       occurrences ws (active_connections w1)).
Proof.
  split.
  - intros incoming. unfold websocket_endpoint, mbind, M_bind.
    rewrite connect_eq, receive_until_disconnect_eq.
    unfold disconnect. cbn [active_connections broadcast_world set_received
                              set_wire set_active_connections].
    destruct (list_remove ws (active_connections w ++ [ws])) as [l' |] eqn:E.
    + split; [reflexivity |]. intros Hout. cbn.
      rewrite (list_remove_last _ _ Hout) in E. now injection E as <-.
    + exfalso.
      assert (Hin : ws ∈ active_connections w ++ [ws])
        by (apply elem_of_app; right; left).
      destruct (list_remove_present _ _ Hin) as (l1 & l2 & _ & _ & E').
      congruence.
  - intros during Hd w1.
    assert (Hin : ws ∈ active_connections w1).
    { apply stays_registered; [exact Hd |].
      destruct (after_surroundings (Connect ws) w) as (_ & E & _). rewrite E.
      apply elem_of_app. right. left. }
    destruct (list_remove_present _ _ Hin) as (l1 & l2 & _ & _ & E).
    unfold disconnect. rewrite E. eexists. split; [reflexivity |]. cbn.
    rewrite (list_remove_occurrences _ ws _ _ E). now rewrite decide_True.
Qed.

Lemma session_ends_normally_witness :
  let w1 := run_actions [Connect 2; Iteration 0 5; Disconnect 2; Break 1]
              (after (Connect 1) (initial 0 None false)) in
  exists w2,
    disconnect 1 w1 = (Ok (), w2) /\
    S (occurrences 1 (active_connections w2)) =
    occurrences 1 (active_connections w1).
Proof.
  apply (proj2 (session_ends_normally 1 (initial 0 None false))
           [Connect 2; Iteration 0 5; Disconnect 2; Break 1]).
  repeat (constructor; [reflexivity |]). constructor.
Defined.

(** X6. A websocket that connects is put on the list before the welcome is
    broadcast: if it is open, the last text in its inbox is the SYSTEM log
    event that reports the interval in force, and so it is for every open
    websocket that was on the list before. *)
Theorem connect_welcomes (ws : WebSocket) (w : World) :
  let welcome :=
    log_text w "SYSTEM"
      ("Клієнт підключено. Інтервал оновлення: "
       +:+ Py.str_float (update_interval w) +:+ "с") in
  let w' := after (Connect ws) w in
  connect ws w = (Ok (), w') /\
  active_connections w' = active_connections w ++ [ws] /\
  last (wire w') = Some welcome /\
  forall ws' : WebSocket,
    ws' ∈ active_connections w ++ [ws] -> ws' ∉ closed w ->
    last (inbox w' ws') = Some welcome.
Proof.
  cbn zeta. rewrite after_connect.
  split; [apply connect_eq |]. split; [reflexivity |].
  split; [apply last_snoc |].
  intros ws' Hin Hopen. rewrite broadcast_world_inbox.
  cbn [closed active_connections set_active_connections].
  rewrite decide_False by done.
  apply occurrences_elem in Hin.
  destruct (occurrences ws' (active_connections w ++ [ws])) as [| n]; [lia |].
  rewrite replicate_S_end, app_assoc. apply last_snoc.
Qed.

Lemma connect_welcomes_witness :
  last (inbox (after (Connect 5) (initial 3723 None false)) 5) =
  Some (json_dumps
          [("type", JStr "log"); ("time", JStr "01:02:03"); ("level", JStr "SYSTEM");
           ("message", JStr "Клієнт підключено. Інтервал оновлення: 3.0с")]).
Proof.
  apply (proj2 (proj2 (proj2 (connect_welcomes 5 (initial 3723 None false)))) 5);
    by_evaluation.
Defined.

(** ** Starting and stopping, one sensor and all of them *)

Lemma set_is_running_same (b : bool) (s : SensorWorker) :
  is_running s = b -> set_is_running b s = s.
Proof. destruct s; cbn. now intros ->. Qed.

Lemma toggled_sensors b msg (self : nat) (w : World) :
  sensors (toggled b msg self w) = alter (set_is_running b) self (sensors w).
Proof.
  unfold toggled. cbn zeta. destruct (bool_decide _) eqn:E; [| reflexivity].
  apply bool_decide_eq_true in E. apply list_eq. intros j.
  destruct (decide (self = j)) as [<- | Hne];
    [| now rewrite list_lookup_alter_ne].
  rewrite list_lookup_alter_eq.
  destruct (sensors w !! self) as [s |] eqn:Es; [| reflexivity].
  rewrite (list_lookup_total_correct _ _ _ Es) in E. cbn.
  now rewrite set_is_running_same.
Qed.

Lemma toggled_clock b msg (self : nat) (w : World) :
  clock (toggled b msg self w) = clock w.
Proof. now destruct (toggled_surroundings b msg self w) as (_ & _ & E & _). Qed.

Lemma for_each_toggled_eq b msg (body : nat -> M ()) (l : list nat) :
  (forall x w, body x w = (Ok (), toggled b msg x w)) ->
  forall w, for_each l body w = (Ok (), foldl (fun w x => toggled b msg x w) w l).
Proof.
  intros Hbody. induction l as [| x l IH]; intros w; [reflexivity |].
  cbn [for_each foldl]. unfold mbind, M_bind. rewrite Hbody. apply IH.
Qed.

(** The sensors after a loop of [start] or [stop] over a range of
    references. *)
Lemma toggled_range_sensors b msg (n start_ : nat) (w : World) (j : nat) :
  sensors (foldl (fun w x => toggled b msg x w) w (seq start_ n)) !! j =
  if bool_decide (start_ <= j < start_ + n)
  then set_is_running b <$> sensors w !! j
  else sensors w !! j.
Proof.
  revert start_ w. induction n as [| n IH]; intros start_ w.
  - cbn. rewrite bool_decide_eq_false_2 by lia. reflexivity.
  - cbn [seq foldl]. rewrite IH, toggled_sensors.
    destruct (decide (start_ = j)) as [<- | Hne].
    + rewrite list_lookup_alter_eq.
      rewrite (bool_decide_eq_false_2 (S start_ <= start_ < _)) by lia.
      now rewrite bool_decide_eq_true_2 by lia.
    + rewrite list_lookup_alter_ne by done.
      destruct (bool_decide (S start_ <= j < S start_ + n)) eqn:E.
      * apply bool_decide_eq_true in E. now rewrite bool_decide_eq_true_2 by lia.
      * apply bool_decide_eq_false in E. now rewrite bool_decide_eq_false_2 by lia.
Qed.

(** The logs of a loop of [start] or [stop] over a range of references, read
    off the world before the loop. *)
Lemma toggled_range_wire b msg (n start_ : nat) (w w0 : World) :
  (forall i, start_ <= i -> sensors w !!! i = sensors w0 !!! i) ->
  clock w = clock w0 ->
  wire (foldl (fun w x => toggled b msg x w) w (seq start_ n)) =
  wire w ++ flat_map (toggle_log b msg w0) (seq start_ n).
Proof.
  revert start_ w. induction n as [| n IH]; intros start_ w Hs Hc.
  - cbn. now rewrite app_nil_r.
  - cbn [seq foldl flat_map]. rewrite IH.
    + destruct (toggled_between b msg start_ w) as [-> _].
      rewrite <- app_assoc. do 2 f_equal.
      unfold toggle_log, log_text. cbn zeta. now rewrite Hs, Hc by lia.
    + intros i Hi. rewrite toggled_sensors.
      rewrite list_lookup_total_alter_ne by lia. apply Hs. lia.
    + now rewrite toggled_clock.
Qed.

Lemma toggled_all_sensors b msg (n : nat) (w : World) :
  length (sensors w) <= n ->
  sensors (foldl (fun w x => toggled b msg x w) w (seq 0 n)) =
  set_is_running b <$> sensors w.
Proof.
  intros Hlen. apply list_eq. intros j.
  rewrite toggled_range_sensors, list_lookup_fmap.
  destruct (bool_decide _) eqn:E; [reflexivity |].
  apply bool_decide_eq_false in E.
  rewrite (lookup_ge_None_2 (sensors w) j) by lia. reflexivity.
Qed.

Lemma toggled_again b msg (self : nat) (w : World) :
  is_running (sensors w !!! self) = b -> toggled b msg self w = w.
Proof. intros H. unfold toggled. cbn zeta. now rewrite bool_decide_eq_true_2. Qed.

Lemma toggled_all_again b msg (l : list nat) (w : World) :
  Forall (fun i => is_running (sensors w !!! i) = b) l ->
  foldl (fun w x => toggled b msg x w) w l = w.
Proof.
  induction 1 as [| i l Hi _ IH]; [reflexivity |].
  cbn [foldl]. now rewrite toggled_again.
Qed.

Lemma all_set (b : bool) (l : list SensorWorker) (n : nat) :
  length l = n ->
  Forall (fun i => is_running ((set_is_running b <$> l) !!! i) = b) (seq 0 n).
Proof.
  intros Hlen. apply Forall_forall. intros i Hi.
  apply elem_of_seq in Hi.
  destruct (lookup_lt_is_Some_2 l i ltac:(lia)) as [s Hs].
  rewrite (list_lookup_total_correct (set_is_running b <$> l) i (set_is_running b s)).
  - reflexivity.
  - now rewrite list_lookup_fmap, Hs.
Qed.

Lemma toggled_all_surroundings b msg (l : list nat) (w : World) :
  same_surroundings w (foldl (fun w x => toggled b msg x w) w l).
Proof.
  revert w. induction l as [| i l IH]; intros w; [apply same_surroundings_refl |].
  cbn [foldl]. eapply same_surroundings_trans; [apply toggled_surroundings | apply IH].
Qed.

(** X7. [stop_all] returns normally and pauses every sensor without touching
    its value or definition; it sends one "зупинено" log event for each
    sensor that was running, in the order of [sensors_list], and none for a
    sensor that was paused already; a second [stop_all] changes nothing and
    sends nothing. *)
Theorem stop_all_pauses_everything (w : World) :
  length (sensors w) = length sensors_list ->
  exists w',
    stop_all w = (Ok (), w') /\
    sensors w' = set_is_running false <$> sensors w /\
    wire w' =
      wire w ++ flat_map (toggle_log false stopped_message w)
                  (seq 0 (length sensors_list)) /\
    same_surroundings w w' /\
    stop_all w' = (Ok (), w').
Proof.
  intros Hlen. unfold stop_all.
  rewrite (for_each_toggled_eq false stopped_message stop _ stop_toggled).
  eexists. split; [reflexivity |].
  assert (Hs : sensors (foldl (fun w x => toggled false stopped_message x w) w
                          (seq 0 (length sensors_list))) =
               set_is_running false <$> sensors w)
    by (apply toggled_all_sensors; lia).
  split; [exact Hs |]. split; [now apply toggled_range_wire |]. split.
  - apply toggled_all_surroundings.
  - rewrite (for_each_toggled_eq false stopped_message stop _ stop_toggled).
    f_equal. apply toggled_all_again. rewrite Hs. now apply all_set.
Qed.

Lemma stop_all_sensors (w : World) :
  length (sensors w) = length sensors_list ->
  exists w',
    stop_all w = (Ok (), w') /\
    sensors w' = set_is_running false <$> sensors w.
Proof.
  intros Hlen. unfold stop_all.
  rewrite (for_each_toggled_eq false stopped_message stop _ stop_toggled).
  eexists. split; [reflexivity |]. apply toggled_all_sensors. lia.
Qed.

Lemma stop_all_pauses_everything_witness :
  let w := after (StopSensor "uv") (initial 3723 None false) in
  exists w',
    stop_all w = (Ok (), w') /\
    sensors w' = set_is_running false <$> sensors w /\
    wire w' =
      wire w ++ flat_map (toggle_log false stopped_message w)
                  (seq 0 (length sensors_list)) /\
    same_surroundings w w' /\
    stop_all w' = (Ok (), w').
Proof.
  apply (stop_all_pauses_everything
           (after (StopSensor "uv") (initial 3723 None false))).
  reflexivity.
Defined.

(** The log events of the run above: six sensors were still running. *)
Example stop_all_logs :
  length (flat_map
            (toggle_log false stopped_message
               (after (StopSensor "uv") (initial 3723 None false)))
            (seq 0 (length sensors_list))) = 6.
Proof. reflexivity. Qed.

Lemma fmap_set_running_back (l : list SensorWorker) :
  Forall (fun s => is_running s = true) l ->
  set_is_running true <$> (set_is_running false <$> l) = l.
Proof.
  induction 1 as [| s l Hs _ IH]; [reflexivity |].
  cbn. now rewrite IH, set_running_again.
Qed.

(** X8. [start_all] returns normally and sets every sensor running without
    touching its value or definition; it sends one "стартував" log event
    for each sensor that was paused, in the order of [sensors_list], and a
    second [start_all] changes nothing.  After [stop_all], it gives sensors
    that were all running their state back. *)
Theorem start_all_resumes_everything (w : World) :
  length (sensors w) = length sensors_list ->
  (exists w',
     start_all w = (Ok (), w') /\
     sensors w' = set_is_running true <$> sensors w /\
     wire w' =
       wire w ++ flat_map (toggle_log true started_message w)
                   (seq 0 (length sensors_list)) /\
     same_surroundings w w' /\
     start_all w' = (Ok (), w')) /\
  (Forall (fun s => is_running s = true) (sensors w) ->
   sensors (start_all (stop_all w).2).2 = sensors w).
Proof.
  intros Hlen.
  assert (Hstart : forall w0, length (sensors w0) = length sensors_list ->
            sensors (start_all w0).2 = set_is_running true <$> sensors w0).
  { intros w0 H0. unfold start_all.
    rewrite (for_each_toggled_eq true started_message start _ start_toggled).
    cbn [snd]. apply toggled_all_sensors. lia. }
  split.
  - unfold start_all.
    rewrite (for_each_toggled_eq true started_message start _ start_toggled).
    eexists. split; [reflexivity |].
    assert (Hs : sensors (foldl (fun w x => toggled true started_message x w) w
                            (seq 0 (length sensors_list))) =
                 set_is_running true <$> sensors w)
      by (apply toggled_all_sensors; lia).
    split; [exact Hs |]. split; [now apply toggled_range_wire |].
    split; [apply toggled_all_surroundings |].
    rewrite (for_each_toggled_eq true started_message start _ start_toggled).
    f_equal. apply toggled_all_again. rewrite Hs. now apply all_set.
  - intros Hrun.
    destruct (stop_all_sensors w Hlen) as (w1 & E1 & Hs1).
    rewrite E1. cbn [snd]. rewrite Hstart.
    + rewrite Hs1. now apply fmap_set_running_back.
    + now rewrite Hs1, length_fmap.
Qed.

Lemma start_all_resumes_everything_witness :
  sensors (start_all (stop_all (initial 0 None false)).2).2 =
  sensors (initial 0 None false).
Proof.
  apply (proj2 (start_all_resumes_everything (initial 0 None false) eq_refl)).
  repeat (constructor; [reflexivity |]). constructor.
Defined.

Lemma iteration_paused (self : nat) (draw : N) (w : World) :
  is_running (sensors w !!! self) = false -> after (Iteration self draw) w = w.
Proof.
  intros H. rewrite after_iteration. unfold iteration_world. cbn zeta.
  now rewrite H.
Qed.

(** X9. Paused sensors are silent: after [stop_all], however many turns the
    sensor tasks take, nothing changes, no value, no row of the history
    file, no event; each turn only ends with its sleep of the interval. *)
Theorem paused_sensors_are_silent (w : World) (turns : list (nat * N)) :
  length (sensors w) = length sensors_list ->
  Forall (fun turn => turn.1 < length sensors_list) turns ->
  let w' := (stop_all w).2 in
  run_actions ((fun turn => Iteration turn.1 turn.2) <$> turns) w' = w' /\
  Forall (fun turn =>
            run_iteration turn.1 turn.2 w' = (Ok (update_interval w'), w')) turns.
Proof.
  intros Hlen Hturns w'.
  destruct (stop_all_sensors w Hlen) as (w1 & E1 & Hs1).
  assert (Hw : w' = w1) by (unfold w'; now rewrite E1). rewrite Hw. clear Hw w'.
  assert (Hp : forall i, i < length sensors_list ->
                 is_running (sensors w1 !!! i) = false).
  { intros i Hi. rewrite Hs1.
    pose proof (all_set false (sensors w) _ Hlen) as Hall.
    apply (proj1 (Forall_forall _ _) Hall). apply elem_of_seq. lia. }
  split.
  - induction Hturns as [| turn turns Ht _ IH]; [reflexivity |].
    cbn [fmap list_fmap run_actions foldl].
    rewrite iteration_paused by auto. exact IH.
  - apply (Forall_impl _ _ _ Hturns). intros turn Ht.
    rewrite run_iteration_eq. f_equal.
    rewrite <- after_iteration. now apply iteration_paused, Hp.
Qed.

Lemma paused_sensors_are_silent_witness :
  let w' := (stop_all (initial 0 None false)).2 in
  run_actions [Iteration 0 5; Iteration 6 9; Iteration 0 8486000000000000] w' = w'.
Proof.
  apply (proj1 (paused_sensors_are_silent (initial 0 None false)
                  [(0, 5%N); (6, 9%N); (0, 8486000000000000%N)] eq_refl
                  ltac:(repeat (constructor; [cbn; lia |]); constructor))).
Defined.

(** The map of the sensors finds every sensor under its identifier. *)
Lemma sensors_map_lookup (i : nat) (s : SensorWorker) :
  sensors_list !! i = Some s -> sensors_map !! sensor_id s = Some i.
Proof.
  intros H. do 7 (destruct i as [| i]; [injection H as <-; reflexivity |]).
  discriminate H.
Qed.

(** X10. A start or stop command reaches the sensor that bears the
    identifier, and no other: in a state whose sensors are those of
    [sensors_list], whatever their flags and values, the command for the
    identifier of the sensor at reference [i] sets the flag of that sensor
    and leaves every other sensor as it was. *)
Theorem command_reaches_named_sensor (w : World) (i : nat) (s : SensorWorker) :
  Forall2 same_definition sensors_list (sensors w) ->
  sensors w !! i = Some s ->
  sensors (stop_sensor (sensor_id s) w).2 =
    <[i := set_is_running false s]> (sensors w) /\
  sensors (start_sensor (sensor_id s) w).2 =
    <[i := set_is_running true s]> (sensors w).
Proof.
  intros Hdef Hs.
  destruct (Forall2_lookup_r _ _ _ _ _ Hdef Hs) as (s0 & Hs0 & Hid & _).
  pose proof (sensors_map_lookup i s0 Hs0) as Hmap. rewrite <- Hid in Hmap.
  assert (Halter : forall b, alter (set_is_running b) i (sensors w) =
                             <[i := set_is_running b s]> (sensors w)).
  { intros b. apply list_eq. intros j.
    destruct (decide (i = j)) as [<- | Hne].
    - rewrite list_lookup_alter_eq, Hs.
      now rewrite list_lookup_insert_eq by (eapply lookup_lt_Some; eauto).
    - now rewrite list_lookup_alter_ne, list_lookup_insert_ne. }
  unfold stop_sensor, start_sensor. rewrite Hmap. split.
  - rewrite stop_toggled. cbn [snd]. rewrite toggled_sensors. apply Halter.
  - rewrite start_toggled. cbn [snd]. rewrite toggled_sensors. apply Halter.
Qed.

Lemma command_reaches_named_sensor_witness :
  sensors (stop_sensor "press" (initial 0 None false)).2 =
    <[3 := set_is_running false (SensorWorker_init "press" "Тиск" "hPa" 980 1050)]>
      (sensors (initial 0 None false)).
Proof.
  apply (proj1 (command_reaches_named_sensor (initial 0 None false) 3
                  (SensorWorker_init "press" "Тиск" "hPa" 980 1050)
                  ltac:(repeat (constructor; [unfold same_definition; auto 10 |]);
                        constructor)
                  eq_refl)).
Defined.

(** ** The history file *)

Lemma iteration_world_csv (self : nat) (draw : N) (w : World) :
  csv_file (iteration_world self draw w) =
  let s := sensors w !!! self in
  if is_running s then
    csv_file (csv_world (sensor_id s) (sensor_name s) (generate s draw)
                (sensor_unit s) w)
  else csv_file w.
Proof.
  unfold iteration_world. cbn zeta. destruct (is_running _); [| reflexivity].
  match goal with
  | |- context [broadcast_all ?l ?w0] =>
      destruct (broadcast_all_surroundings l w0) as (_ & _ & _ & _ & E & _)
  end.
  rewrite E. unfold csv_world. cbn. now destruct (disk_error w).
Qed.

(** The history file after an action: as before, or with one more reading,
    below a header if the file is new. *)
Lemma after_csv_file (a : Action) (w : World) :
  csv_file (after a w) = csv_file w \/
  exists (sid name : string) (value : Q) (unit_ : string),
    csv_file (after a w) =
    Some (default [] (csv_file w)
          ++ (if bool_decide (is_Some (csv_file w)) then [] else [Header])
          ++ [Reading (clock w) sid name value unit_]).
Proof.
  destruct a.
  all: only 1-8, 10-12: left.
  - now rewrite after_connect.
  - unfold after, perform, disconnect. now destruct (list_remove _ _).
  - now rewrite after_set_interval.
  - unfold after, perform, start_sensor. destruct (sensors_map !! sid); [| done].
    rewrite start_toggled. cbn [snd].
    now destruct (toggled_surroundings true started_message n w) as (_&_&_&_&E&_).
  - unfold after, perform, stop_sensor. destruct (sensors_map !! sid); [| done].
    rewrite stop_toggled. cbn [snd].
    now destruct (toggled_surroundings false stopped_message n w) as (_&_&_&_&E&_).
  - unfold after, perform.
    now destruct (start_all_related same_surroundings same_surroundings_refl
                    same_surroundings_trans (toggled_surroundings _ _) w)
      as [_ (_&_&_&_&E&_)].
  - unfold after, perform.
    now destruct (stop_all_related same_surroundings same_surroundings_refl
                    same_surroundings_trans (toggled_surroundings _ _) w)
      as [_ (_&_&_&_&E&_)].
  - now rewrite after_ready.
  - reflexivity.
  - reflexivity.
  - reflexivity.
  - rewrite after_iteration, iteration_world_csv. cbn zeta.
    destruct (is_running _); [| now left].
    rewrite csv_world_file. destruct (disk_error w); [now left |].
    right. now eexists _, _, _, _.
Qed.

(** X11. A turn of a running sensor puts one and the same value into the
    sensor, into the data event, which is the last text it broadcasts, and
    into the reading it appends to the history file, below a header if the
    file is new.  When the history file cannot be opened it stays as it is,
    missing if it was missing, and value and data event are as without the
    failure. *)
Theorem turn_records_and_broadcasts (w : World) (self : nat) (s : SensorWorker)
    (draw : N) :
  sensors w !! self = Some s -> is_running s = true ->
  let value := generate s draw in
  let w' := (run_iteration self draw w).2 in
  (run_iteration self draw w).1 = Ok (update_interval w) /\
  sensors w' !! self = Some (set_current_value value s) /\
  last (wire w') = Some (data_text w s value) /\
  csv_file w' =
    if disk_error w then csv_file w
    else Some (default [] (csv_file w)
               ++ (if bool_decide (is_Some (csv_file w)) then [] else [Header])
               ++ [Reading (clock w) (sensor_id s) (sensor_name s) value
                     (sensor_unit s)]).
Proof.
  intros Hs Hrun value w'. unfold w'. rewrite run_iteration_eq. cbn [fst snd].
  pose proof (list_lookup_total_correct _ _ _ Hs) as Ht.
  split; [reflexivity |]. split; [| split].
  - rewrite sensors_iteration. cbn zeta. rewrite Ht, Hrun.
    now rewrite list_lookup_alter_eq, Hs.
  - rewrite wire_iteration. cbn zeta. rewrite Ht, Hrun.
    now rewrite !app_assoc, last_snoc.
  - rewrite iteration_world_csv. cbn zeta. rewrite Ht, Hrun.
    apply csv_world_file.
Qed.

Lemma turn_records_and_broadcasts_witness :
  let w := initial 3723 None false in
  csv_file (run_iteration 0 8486000000000000 w).2 =
  Some [Header; Reading 3723 "temp" "Температура" (324 # 10) "°C"].
Proof.
  apply (proj2 (proj2 (proj2
           (turn_records_and_broadcasts (initial 3723 None false) 0
              (SensorWorker_init "temp" "Температура" "°C" (-10) 35)
              8486000000000000%N eq_refl eq_refl)))).
Defined.

Lemma clear_history_eq (w : World) :
  clear_history w =
  match csv_file w with
  | None => (Ok [("status", JStr "cleared")], w)
  | Some _ =>
      if disk_error w then (Raise OSError, w)
      else (Ok [("status", JStr "cleared")], set_csv_file (Some [Header]) w)
  end.
Proof.
  unfold clear_history, when, mbind, M_bind, gets, modify, raise. cbn.
  destruct (csv_file w); cbn; [| reflexivity]. now destruct (disk_error w).
Qed.

Lemma get_history_data_eq (w : World) :
  get_history_data w =
  (Ok (match csv_file w with
       | None => []
       | Some rows =>
           if disk_error w then []
           else reverse (slice_last 50 (DictReader rows))
       end), w).
Proof.
  unfold get_history_data, try_except, mbind, M_bind, gets, raise. cbn.
  destruct (csv_file w); cbn; [| reflexivity]. now destruct (disk_error w).
Qed.

Lemma well_formed_after (a : Action) (w : World) :
  well_formed_csv (csv_file w) -> well_formed_csv (csv_file (after a w)).
Proof.
  intros H. destruct (after_csv_file a w) as [-> | (sid & name & v & u & ->)];
    [exact H |].
  destruct (csv_file w) as [rows |]; cbn.
  - destruct H as (readings & -> & Hr).
    exists (readings ++ [Reading (clock w) sid name v u]).
    split; [reflexivity |]. apply Forall_app. split; [exact Hr |].
    now constructor.
  - exists [Reading (clock w) sid name v u]. split; [reflexivity |].
    now constructor.
Qed.

Lemma well_formed_served (r : Request) (w : World) :
  well_formed_csv (csv_file w) -> well_formed_csv (csv_file (serve r w).2).
Proof.
  intros H. destruct r; cbn [serve].
  - now apply well_formed_after.
  - unfold mbind, M_bind. now rewrite get_history_data_eq.
  - unfold mbind, M_bind. rewrite clear_history_eq.
    destruct (csv_file w) eqn:E; cbn; [| now rewrite E].
    destruct (disk_error w); cbn; [now rewrite E |].
    exists []. split; [reflexivity | constructor].
Qed.

(** X12. The history file keeps its form, as long as the disk fails in no
    other way than by refusing to open the file.  If there is no file when
    the program starts, or one that consists of the header and readings,
    then after any sequence of requests and sensor turns, with the file
    refusing to open at any of them, there is no file or one that consists of
    the header, once and first, and readings. *)
Theorem history_file_keeps_header (file : option (list CsvRow))
    (requests : list Request) (t : nat) (failing : bool) :
  well_formed_csv file ->
  well_formed_csv (csv_file (run_requests requests (initial t file failing))).
Proof.
  intros H.
  assert (H0 : well_formed_csv (csv_file (initial t file failing))) by exact H.
  revert H0. generalize (initial t file failing).
  induction requests as [| r requests IH]; intros w Hw; [exact Hw |].
  apply IH, well_formed_served, Hw.
Qed.

Lemma history_file_keeps_header_witness :
  well_formed_csv
    (csv_file (run_requests
                 [Engine (Iteration 0 5); ClearHistory; Engine (Disk true);
                  Engine (Iteration 1 6); ClearHistory; Engine (Disk false);
                  Engine (Iteration 2 7); GetHistory]
                 (initial 0 None false))).
Proof. apply (history_file_keeps_header None). exact I. Defined.

(** X13. The engine only ever appends to the history file: whatever the
    sensors and the operator commands do, the rows of an existing file stay
    where they are, and what is added below them are readings. *)
Theorem history_is_append_only (actions : list Action) (w : World)
    (rows : list CsvRow) :
  csv_file w = Some rows ->
  exists more : list CsvRow,
    csv_file (run_actions actions w) = Some (rows ++ more) /\
    Forall is_reading more.
Proof.
  revert w rows. induction actions as [| a actions IH]; intros w rows H.
  - exists []. split; [now rewrite app_nil_r | constructor].
  - cbn [run_actions foldl]. fold (run_actions actions (after a w)).
    destruct (after_csv_file a w) as [E | (sid & name & v & u & E)].
    + apply IH. now rewrite E.
    + rewrite H in E. cbn in E.
      destruct (IH _ _ E) as (more & -> & Hm).
      exists (Reading (clock w) sid name v u :: more).
      split; [now rewrite <- app_assoc |]. now constructor.
Qed.

Lemma history_is_append_only_witness :
  exists more : list CsvRow,
    csv_file (run_actions [Iteration 0 5; StopAll; Iteration 1 6; Connect 1]
                (initial 0 (Some [Header]) false)) = Some ([Header] ++ more) /\
    Forall is_reading more.
Proof.
  apply (history_is_append_only
           [Iteration 0 5; StopAll; Iteration 1 6; Connect 1]
           (initial 0 (Some [Header]) false) [Header]).
  reflexivity.
Defined.

(** ** Reading the history *)

Lemma slice_last_length {A} (n : nat) (l : list A) :
  length (slice_last n l) = Nat.min n (length l).
Proof. unfold slice_last. rewrite length_drop. lia. Qed.

Lemma slice_last_snoc {A} (n : nat) (l : list A) (x : A) :
  0 < n -> exists k, slice_last n (l ++ [x]) = k ++ [x].
Proof.
  intros Hn. unfold slice_last. rewrite length_app. cbn [length].
  exists (drop (length l + 1 - n) l). apply drop_app_le. lia.
Qed.

(** X14. [get_history_data] never fails and changes nothing.  It answers
    with the empty list when there is no file, when the file cannot be
    opened and when the file is empty; otherwise with the rows below the
    first one, each read under the field names of the first row: the last
    50 of them at most, the most recent first. *)
Theorem history_shows_recent_tail (w : World) :
  exists records : list HistoryRecord,
    get_history_data w = (Ok records, w) /\
    length records <= 50 /\
    (csv_file w = None \/ csv_file w = Some [] \/ disk_error w = true ->
     records = []) /\
    forall (fieldnames : CsvRow) (data : list CsvRow),
      csv_file w = Some (fieldnames :: data) -> disk_error w = false ->
      length records = Nat.min 50 (length data) /\
      forall k : nat,
        k < length records ->
        records !! k = DictRow fieldnames <$> data !! (length data - 1 - k).
Proof.
  rewrite get_history_data_eq. eexists. split; [reflexivity |].
  split; [| split].
  - destruct (csv_file w); [| cbn; lia]. destruct (disk_error w); [cbn; lia |].
    rewrite length_reverse, slice_last_length. lia.
  - intros [-> | [-> | ->]]; [reflexivity | now destruct (disk_error w) |].
    now destruct (csv_file w).
  - intros fieldnames data -> ->. cbn [DictReader].
    rewrite length_reverse, slice_last_length, length_fmap.
    split; [reflexivity |]. intros k Hk.
    rewrite reverse_lookup by (rewrite slice_last_length, length_fmap; exact Hk).
    unfold slice_last. rewrite lookup_drop, length_drop, !length_fmap.
    rewrite list_lookup_fmap. do 2 f_equal. lia.
Qed.

(** Sixty readings below the header: fifty records, the last reading first. *)
Example history_of_sixty :
  let readings := (fun k => Reading k "temp" "T" 1 "C") <$> seq 0 60 in
  let w := initial 0 (Some (Header :: readings)) false in
  exists records,
    (get_history_data w).1 = Ok records /\ length records = 50 /\
    records !! 0 = Some (DictRow Header (Reading 59 "temp" "T" 1 "C")) /\
    records !! 49 = Some (DictRow Header (Reading 10 "temp" "T" 1 "C")).
Proof. cbn zeta. eexists. rewrite get_history_data_eq. repeat split. Qed.

(** X15. What a sensor has just recorded is the first record of the
    history: after a turn of a running sensor on a working disk, with no
    file before or with a file that has the header, [get_history_data]
    starts with the reading of that turn, read under the header.  An
    existing empty file is different: it never gets a header, so the
    reading of the turn becomes the row of field names and the history
    shows nothing. *)
Theorem newest_reading_comes_first (w : World) (self : nat) (s : SensorWorker)
    (draw : N) :
  sensors w !! self = Some s -> is_running s = true -> disk_error w = false ->
  let w' := after (Iteration self draw) w in
  (well_formed_csv (csv_file w) ->
   exists older : list HistoryRecord,
     (get_history_data w').1 =
     Ok (DictRow Header
           (Reading (clock w) (sensor_id s) (sensor_name s) (generate s draw)
              (sensor_unit s)) :: older)) /\
  (csv_file w = Some [] -> (get_history_data w').1 = Ok []).
Proof.
  intros Hs Hrun Hdisk w'.
  pose proof (list_lookup_total_correct _ _ _ Hs) as Ht.
  assert (Hfile : csv_file w' =
            Some (default [] (csv_file w)
                  ++ (if bool_decide (is_Some (csv_file w)) then [] else [Header])
                  ++ [Reading (clock w) (sensor_id s) (sensor_name s)
                        (generate s draw) (sensor_unit s)])).
  { unfold w'. rewrite after_iteration, iteration_world_csv. cbn zeta.
    rewrite Ht, Hrun, csv_world_file. now rewrite Hdisk. }
  assert (Hd : disk_error w' = false).
  { unfold w'. rewrite after_iteration.
    destruct (iteration_world_surroundings self draw w) as (_ & _ & _ & _ & E).
    now rewrite E. }
  rewrite get_history_data_eq. cbn [fst]. rewrite Hfile, Hd. split.
  - intros Hwf. destruct (csv_file w) as [rows |]; cbn.
    + destruct Hwf as (readings & -> & _). cbn [app DictReader].
      rewrite fmap_app. cbn [fmap list_fmap].
      destruct (slice_last_snoc 50 (DictRow Header <$> readings)
                  (DictRow Header (Reading (clock w) (sensor_id s) (sensor_name s)
                                     (generate s draw) (sensor_unit s)))
                  ltac:(lia)) as (k & ->).
      rewrite reverse_snoc. now eexists.
    + now eexists.
  - intros ->. reflexivity.
Qed.

Lemma newest_reading_comes_first_witness :
  let w := initial 3723 (Some [Header; Reading 5 "uv" "УФ-індекс" 3 "idx"]) false in
  exists older : list HistoryRecord,
    (get_history_data (after (Iteration 0 8486000000000000) w)).1 =
    Ok (DictRow Header (Reading 3723 "temp" "Температура"
                          (generate (SensorWorker_init "temp" "Температура" "°C" (-10) 35)
                             8486000000000000) "°C") :: older).
Proof.
  intros w.
  apply (proj1 (newest_reading_comes_first w 0
                  (SensorWorker_init "temp" "Температура" "°C" (-10) 35)
                  8486000000000000%N eq_refl eq_refl eq_refl)).
  exists [Reading 5 "uv" "УФ-індекс" 3 "idx"].
  split; [reflexivity |]. repeat constructor.
Defined.

(** X16. [clear_history] leaves a missing file missing and reduces an
    existing one to the header; the history is then empty, and the next
    reading is appended below one header whether there was a file or not.
    Unlike [log_to_csv] it does not catch a failing disk: with a file that
    cannot be opened it ends in [OSError] and changes nothing. *)
Theorem clear_history_resets_file (w : World) :
  (csv_file w = None \/ disk_error w = false ->
   exists w',
     clear_history w = (Ok [("status", JStr "cleared")], w') /\
     csv_file w' = (if bool_decide (is_Some (csv_file w)) then Some [Header] else None) /\
     (get_history_data w').1 = Ok [] /\
     sensors w' = sensors w /\ wire w' = wire w /\ received w' = received w /\
     forall (self : nat) (s : SensorWorker) (draw : N),
       sensors w !! self = Some s -> is_running s = true -> disk_error w = false ->
       csv_file (after (Iteration self draw) w') =
       Some [Header;
             Reading (clock w) (sensor_id s) (sensor_name s) (generate s draw)
               (sensor_unit s)]) /\
  (is_Some (csv_file w) -> disk_error w = true ->
   clear_history w = (Raise OSError, w)).
Proof.
  rewrite clear_history_eq. split.
  - intros H.
    assert (Hturn : forall w' (self : nat) (s : SensorWorker) (draw : N),
              sensors w' = sensors w -> clock w' = clock w ->
              disk_error w' = disk_error w ->
              sensors w !! self = Some s -> is_running s = true ->
              disk_error w = false ->
              csv_file (after (Iteration self draw) w') =
              Some (default [] (csv_file w')
                    ++ (if bool_decide (is_Some (csv_file w')) then [] else [Header])
                    ++ [Reading (clock w) (sensor_id s) (sensor_name s)
                          (generate s draw) (sensor_unit s)])).
    { intros w' self s draw Es Ec Ed Hs Hrun Hdisk.
      rewrite after_iteration, iteration_world_csv. cbn zeta.
      rewrite Es, (list_lookup_total_correct _ _ _ Hs), Hrun, csv_world_file.
      now rewrite Ed, Hdisk, Ec. }
    destruct (csv_file w) as [rows |] eqn:E.
    + destruct H as [H | H]; [discriminate H |]. rewrite H.
      eexists. split; [reflexivity |]. split; [reflexivity |].
      split; [rewrite get_history_data_eq; cbn; now rewrite H |].
      do 3 (split; [reflexivity |]).
      intros self s draw Hs Hrun _.
      now rewrite (Hturn (set_csv_file (Some [Header]) w) self s draw
                     eq_refl eq_refl eq_refl Hs Hrun H).
    + eexists. split; [reflexivity |]. split; [exact E |].
      split; [rewrite get_history_data_eq; now rewrite E |].
      do 3 (split; [reflexivity |]).
      intros self s draw Hs Hrun Hdisk.
      rewrite (Hturn _ self s draw eq_refl eq_refl eq_refl Hs Hrun Hdisk).
      now rewrite E.
  - intros [rows ->] ->. reflexivity.
Qed.

Lemma clear_history_resets_file_witness :
  let w := initial 9 (Some [Header; Reading 5 "uv" "УФ-індекс" 3 "idx"]) false in
  exists w',
    clear_history w = (Ok [("status", JStr "cleared")], w') /\
    csv_file w' = Some [Header] /\
    (get_history_data w').1 = Ok [].
Proof.
  intros w.
  destruct (proj1 (clear_history_resets_file w) (or_intror eq_refl))
    as (w' & E & Hf & Hh & _).
  exists w'. split; [exact E |]. split; [exact Hf | exact Hh].
Defined.

(** ** The start of the program *)

(** A sensor task announces itself and takes its first turn. *)
Lemma first_turn (w : World) (i : nat) (s : SensorWorker) (d : N) :
  sensors w !! i = Some s -> is_running s = true -> disk_error w = false ->
  let w' := after (Iteration i d) (after (Ready i) w) in
  sensors w' = <[i := set_current_value (generate s d) s]> (sensors w) /\
  csv_file w' =
    Some (default [] (csv_file w)
          ++ (if bool_decide (is_Some (csv_file w)) then [] else [Header])
          ++ [Reading (clock w) (sensor_id s) (sensor_name s) (generate s d)
                (sensor_unit s)]) /\
  clock w' = clock w /\ disk_error w' = false /\
  active_connections w' = active_connections w.
Proof.
  intros Hs Hrun Hdisk w'. unfold w'. rewrite after_ready.
  set (w1 := broadcast_world _ w).
  assert (Hs1 : sensors w1 !! i = Some s) by exact Hs.
  pose proof (list_lookup_total_correct _ _ _ Hs1) as Ht.
  rewrite after_iteration.
  destruct (iteration_world_surroundings i d w1) as (_ & Ea & Ec & _ & Ed).
  rewrite Ea, Ec, Ed, sensors_iteration, iteration_world_csv. cbn zeta.
  rewrite Ht, Hrun, csv_world_file.
  change (disk_error w1) with (disk_error w). rewrite Hdisk.
  split; [| auto].
  change (sensors w1) with (sensors w). apply list_eq. intros j.
  destruct (decide (i = j)) as [<- | Hne].
  - rewrite list_lookup_alter_eq, Hs.
    now rewrite list_lookup_insert_eq by (eapply lookup_lt_Some; eauto).
  - now rewrite list_lookup_alter_ne, list_lookup_insert_ne.
Qed.

(** X18. When the program starts with a working disk and no history file
    and no observer, every sensor generates its first value, and the file
    gets the header followed by one reading for each sensor, in the order of
    [sensors_list], each with the value the sensor then holds. *)
Theorem startup_records_every_sensor (t : nat) (draws : list N) :
  length draws = length sensors_list ->
  let w := run_actions (startup_event draws) (initial t None false) in
  sensors w =
    zip_with (fun s d => set_current_value (generate s d) s) sensors_list draws /\
  csv_file w =
    Some (Header ::
          zip_with (fun s d => Reading t (sensor_id s) (sensor_name s)
                                 (generate s d) (sensor_unit s))
            sensors_list draws) /\
  active_connections w = [].
Proof.
  intros Hlen.
  do 7 (destruct draws as [| ? draws]; [discriminate Hlen |]).
  destruct draws; [clear Hlen | discriminate Hlen].
  unfold startup_event, run_actions.
  cbn [length sensors_list seq zip_with concat app foldl].
  set (w0 := initial t None false).
  assert (H0 : sensors w0 = sensors_list /\ csv_file w0 = None /\
               clock w0 = t /\ disk_error w0 = false /\
               active_connections w0 = []) by (repeat split).
  revert H0. generalize w0. clear w0. intros w0 (Hs & Hf & Hc & Hd & Ha).
  repeat match goal with
  | |- context [after (Iteration ?i ?d) (after (Ready ?i) w0)] =>
      let w1 := fresh "w" in
      let Hs1 := fresh "Hs" in
      let Hf1 := fresh "Hf" in
      let Hc1 := fresh "Hc" in
      let Hd1 := fresh "Hd" in
      let Ha1 := fresh "Ha" in
      let s := eval cbn in (sensors_list !!! i) in
      destruct (first_turn w0 i s d) as (Hs1 & Hf1 & Hc1 & Hd1 & Ha1);
      [ rewrite Hs; reflexivity | reflexivity | exact Hd | ];
      rewrite Hs in Hs1; rewrite Hf, Hc in Hf1; rewrite Hc in Hc1;
      rewrite Ha in Ha1; cbn in Hs1, Hf1;
      set (w1 := after (Iteration i d) (after (Ready i) w0)) in *;
      clearbody w1; clear Hs Hf Hc Hd Ha w0;
      rename w1 into w0, Hs1 into Hs, Hf1 into Hf, Hc1 into Hc, Hd1 into Hd,
             Ha1 into Ha
  end.
  rewrite Hs, Hf, Ha. repeat split.
Qed.

Lemma startup_records_every_sensor_witness :
  csv_file (run_actions (startup_event [0; 0; 0; 0; 0; 0; 0]%N)
              (initial 7 None false)) =
  Some [Header;
        Reading 7 "temp" "Температура" (-100 # 10) "°C";
        Reading 7 "humid" "Вологість" (200 # 10) "%";
        Reading 7 "wind" "Швидкість вітру" (0 # 10) "м/с";
        Reading 7 "press" "Тиск" (9800 # 10) "hPa";
        Reading 7 "uv" "УФ-індекс" (0 # 10) "idx";
        Reading 7 "rain" "Рівень опадів" (0 # 10) "мм";
        Reading 7 "air" "Якість повітря" (0 # 10) "AQI"].
Proof.
  apply (proj1 (proj2 (startup_records_every_sensor 7 [0; 0; 0; 0; 0; 0; 0]%N
                         eq_refl))).
Defined.
